(** * Web icons generator: the decision logic of the TypeScript sources

    A shallow embedding of [generator.ts] (mode resolution, asset
    filtering, maskable padding, manifest, pinned-tab recolouring),
    of [utils.ts] (framework detection, source validation, app-icon
    lookup) and of the tools of [mcp.ts] (the HTML integrator, the two
    generating tools up to the generator they build, the status
    report).

    Strings are byte strings (the UTF-8 text of the JavaScript strings).
    Every pattern the program searches for is pure ASCII, so searching
    bytes or UTF-16 code units finds the same occurrences. *)

From Stdlib Require Import ZArith Bool Ascii String List Lia.
From stdpp Require Import base tactics option list gmap strings pretty.

Set Warnings "-register-all".

Local Open Scope string_scope.
Local Open Scope list_scope.

(** stdpp freezes [String.append] under [simpl]; the proofs below push
    literal prefixes through appends all the time. *)
Arguments String.append !s1 s2 /.

(** ** ECMAScript string built-ins used by the sources *)

Module Js.

(** [s.startsWith(p)] *)
Fixpoint startsWith (s p : string) {struct p} : bool :=
  match p, s with
  | EmptyString, _ => true
  | String _ _, EmptyString => false
  | String a p', String b s' => Ascii.eqb a b && startsWith s' p'
  end.

(** [s.includes(sub)] *)
Fixpoint includes (s sub : string) : bool :=
  startsWith s sub ||
  match s with
  | EmptyString => false
  | String _ r => includes r sub
  end.

(** [s.slice(n)] and [s.slice(0, n)] for [0 <= n]. *)
Fixpoint drop (n : nat) (s : string) : string :=
  match n, s with
  | O, _ => s
  | S _, EmptyString => EmptyString
  | S k, String _ r => drop k r
  end.

Fixpoint take (n : nat) (s : string) : string :=
  match n, s with
  | O, _ => EmptyString
  | S _, EmptyString => EmptyString
  | S k, String a r => String a (take k r)
  end.

(** [s.endsWith(suf)] *)
Definition endsWith (s suf : string) : bool :=
  (String.length suf <=? String.length s)%nat &&
  String.eqb (drop (String.length s - String.length suf) s) suf.

(** [toLowerCase] on the ASCII range.  Bytes above 127 are kept: the
    only characters whose lower case is an ASCII letter are the ASCII
    capitals, U+0130 (gives i) and U+212A (gives k), and no string the
    program compares a lowered string with contains i or k. *)
Definition lower_ascii (c : ascii) : ascii :=
  let n := nat_of_ascii c in
  if ((65 <=? n) && (n <=? 90))%nat then ascii_of_nat (n + 32) else c.

Fixpoint toLowerCase (s : string) : string :=
  match s with
  | EmptyString => EmptyString
  | String a r => String (lower_ascii a) (toLowerCase r)
  end.

(** [a || b] on strings: the empty string and [undefined] are falsy. *)
Definition or_else (a : option string) (b : string) : string :=
  match a with
  | Some (String c r) => String c r
  | _ => b
  end.

End Js.

(** ** Node's [path] module

    [path] belongs to the platform, not to the repository: the program is
    verified against any implementation of the functions it calls. *)

Class NodePath := {
  path_join : string -> string -> string;
  path_basename : string -> string;
  path_extname : string -> string;
  path_resolve : string -> string -> string;
  path_relative : string -> string -> string
}.

(** POSIX models of [basename] and [extname], following Node's
    [lib/path.js]; they instantiate the class in the examples. *)
Module Posix.

Definition slash : ascii := "/"%char.
Definition dot : ascii := "."%char.

Fixpoint strip_slashes (l : list ascii) : list ascii :=
  match l with
  | c :: r => if Ascii.eqb c slash then strip_slashes r else l
  | [] => []
  end.

Fixpoint until_slash (l : list ascii) : list ascii :=
  match l with
  | c :: r => if Ascii.eqb c slash then [] else c :: until_slash r
  | [] => []
  end.

(** The component after the last separator, trailing separators
    ignored. *)
Definition basename (p : string) : string :=
  string_of_list_ascii
    (rev (until_slash (strip_slashes (rev (list_ascii_of_string p))))).

(** The state of the backwards scan of [extname]. *)
Record ext_state := {
  startDot : Z; startPart : Z; end_ : Z;
  matchedSlash : bool; preDotState : Z
}.

Fixpoint extname_loop (rl : list ascii) (i : Z) (st : ext_state) : ext_state :=
  match rl with
  | [] => st
  | code :: rest =>
    if Ascii.eqb code slash then
      if negb (matchedSlash st) then
        {| startDot := startDot st; startPart := i + 1; end_ := end_ st;
           matchedSlash := matchedSlash st; preDotState := preDotState st |}
      else extname_loop rest (i - 1) st
    else
      let st1 :=
        if (end_ st =? -1)%Z then
          {| startDot := startDot st; startPart := startPart st; end_ := i + 1;
             matchedSlash := false; preDotState := preDotState st |}
        else st in
      let st2 :=
        if Ascii.eqb code dot then
          if (startDot st1 =? -1)%Z then
            {| startDot := i; startPart := startPart st1; end_ := end_ st1;
               matchedSlash := matchedSlash st1; preDotState := preDotState st1 |}
          else if negb (preDotState st1 =? 1)%Z then
            {| startDot := startDot st1; startPart := startPart st1; end_ := end_ st1;
               matchedSlash := matchedSlash st1; preDotState := 1 |}
          else st1
        else if negb (startDot st1 =? -1)%Z then
          {| startDot := startDot st1; startPart := startPart st1; end_ := end_ st1;
             matchedSlash := matchedSlash st1; preDotState := -1 |}
        else st1 in
      extname_loop rest (i - 1) st2
  end.

Definition extname (p : string) : string :=
  let n := Z.of_nat (String.length p) in
  let st := extname_loop (rev (list_ascii_of_string p)) (n - 1)
              {| startDot := -1; startPart := 0; end_ := -1;
                 matchedSlash := true; preDotState := 0 |} in
  if (startDot st =? -1)%Z || (end_ st =? -1)%Z || (preDotState st =? 0)%Z ||
     ((preDotState st =? 1)%Z && (startDot st =? end_ st - 1)%Z &&
      (startDot st =? startPart st + 1)%Z)
  then EmptyString
  else Js.take (Z.to_nat (end_ st - startDot st)) (Js.drop (Z.to_nat (startDot st)) p).

(** [join], [resolve] and [relative] on a normalised absolute
    directory and a name without [.] or [..] segments, the only way
    the examples use them. *)
Definition join (dir name : string) : string := dir +:+ "/" +:+ name.

Definition resolve (dir name : string) : string :=
  if Js.startsWith name "/" then name else join dir name.

Definition relative (from to : string) : string :=
  if Js.startsWith to (from +:+ "/")
  then Js.drop (S (String.length from)) to else to.

#[global] Instance node_path : NodePath := {|
  path_join := join;
  path_basename := basename;
  path_extname := extname;
  path_resolve := resolve;
  path_relative := relative
|}.

End Posix.

(** ** More built-ins: join, split, replace *)

Module JsText.
Import Js.

(** The double quote, and text literals in which a backquote stands
    for it. *)
Definition dquote : ascii := "034"%char.
Definition backquote : ascii := "096"%char.
Definition dq : string := String dquote EmptyString.

Fixpoint q (s : string) : string :=
  match s with
  | EmptyString => EmptyString
  | String a r => String (if Ascii.eqb a backquote then dquote else a) (q r)
  end.

Definition nl : string := String "010"%char EmptyString.
Definition backslash : ascii := "092"%char.
(** The two characters backslash and n (what a doubled backslash
    followed by n denotes in a JavaScript literal). *)
Definition backslash_n : string := String backslash "n".

(** [l.join(sep)] *)
Fixpoint join (sep : string) (l : list string) : string :=
  match l with
  | [] => EmptyString
  | [x] => x
  | x :: r => x +:+ sep +:+ join sep r
  end.

(** [s.split(sep)] for a non-empty separator.  [skip] counts the
    characters of a separator occurrence still to be dropped; the head
    of the result is the piece under construction. *)
Definition cons_head (a : ascii) (l : list string) : list string :=
  match l with
  | [] => [String a EmptyString]
  | h :: t => String a h :: t
  end.

Fixpoint split_from (sep : string) (skip : nat) (s : string) : list string :=
  match s with
  | EmptyString => [EmptyString]
  | String a r =>
    match skip with
    | S k => split_from sep k r
    | O =>
      if startsWith s sep
      then EmptyString :: split_from sep (String.length sep - 1) r
      else cons_head a (split_from sep 0 r)
    end
  end.

Definition split (s sep : string) : list string :=
  match sep with
  | EmptyString => map (fun a => String a EmptyString) (list_ascii_of_string s)
  | _ => split_from sep 0 s
  end.

(** [GetSubstitution] of ECMA-262 for a pattern without capture
    groups: in the replacement text, dollar-dollar is a dollar,
    dollar-ampersand the matched text, dollar-backquote the text
    before the match and dollar-apostrophe the text after it; any
    other dollar is literal. *)
Definition dollar : ascii := "$"%char.

Fixpoint getSubstitution (matched before after repl : string) : string :=
  match repl with
  | EmptyString => EmptyString
  | String a r =>
    if Ascii.eqb a dollar then
      match r with
      | String b r' =>
        if Ascii.eqb b dollar then String dollar (getSubstitution matched before after r')
        else if Ascii.eqb b "&"%char then matched +:+ getSubstitution matched before after r'
        else if Ascii.eqb b backquote then before +:+ getSubstitution matched before after r'
        else if Ascii.eqb b "'"%char then after +:+ getSubstitution matched before after r'
        else String a (getSubstitution matched before after r)
      | EmptyString => String a EmptyString
      end
    else String a (getSubstitution matched before after r)
  end.

(** [s.replace(re, repl)] for a global regular expression without
    capture groups whose matches are never empty.  [matchAt t] is the
    length of the match of [re] at the start of [t], if there is one.
    The scan keeps the text already passed ([before]) for the
    substitution and drops the characters of a match with [skip]. *)
Section Replace.
Variable matchAt : string -> option nat.
Variable repl : string.

Fixpoint replace_scan (before : string) (skip : nat) (s : string) : string :=
  match s with
  | EmptyString => EmptyString
  | String a r =>
    let before' := before +:+ String a EmptyString in
    match skip with
    | S k => replace_scan before' k r
    | O =>
      match matchAt s with
      | Some (S n) =>
        getSubstitution (take (S n) s) before (drop (S n) s) repl
          +:+ replace_scan before' n r
      | _ => String a (replace_scan before' 0 r)
      end
    end
  end.

Definition replaceAll (s : string) : string := replace_scan EmptyString 0 s.

(** The scan when the replacement text is taken literally. *)
Fixpoint replace_literal (skip : nat) (s : string) : string :=
  match s with
  | EmptyString => EmptyString
  | String a r =>
    match skip with
    | S k => replace_literal k r
    | O =>
      match matchAt s with
      | Some (S n) => repl +:+ replace_literal n r
      | _ => String a (replace_literal 0 r)
      end
    end
  end.
End Replace.

(** [s.indexOf(pat)] and [s.replace(pat, repl)] for a string pattern:
    only the first occurrence is replaced. *)
Fixpoint indexOf (s pat : string) : option nat :=
  if startsWith s pat then Some O
  else match s with
       | EmptyString => None
       | String _ r => option_map S (indexOf r pat)
       end.

Definition replace (s pat repl : string) : string :=
  match indexOf s pat with
  | None => s
  | Some i =>
    take i s
      +:+ getSubstitution pat (take i s) (drop (i + String.length pat) s) repl
      +:+ drop (i + String.length pat) s
  end.

(** The match, at the start of a text, of the regular expression made
    of the attribute name, an equals sign, a quote, any run of
    characters other than a quote, and a quote.  The negated class
    cannot pass a quote, so there is no match without a closing quote,
    and the value ends at the first quote after the opening one. *)
Fixpoint upto_quote (s : string) : option nat :=
  match s with
  | EmptyString => None
  | String a r => if Ascii.eqb a dquote then Some O else option_map S (upto_quote r)
  end.

Definition attr_open (attr : string) : string := attr +:+ "=" +:+ dq.

Definition match_attr (attr s : string) : option nat :=
  if startsWith s (attr_open attr) then
    option_map (fun k => String.length (attr_open attr) + k + 1)
               (upto_quote (drop (String.length (attr_open attr)) s))
  else None.

(** *** Predicates on texts used in the statements *)

(** [s] contains the character [c]. *)
Fixpoint has_char (c : ascii) (s : string) : bool :=
  match s with
  | EmptyString => false
  | String a r => Ascii.eqb a c || has_char c r
  end.

(** No character of [sep] occurs in [x]. *)
Fixpoint none_in (sep x : string) : bool :=
  match sep with
  | EmptyString => true
  | String ch r => negb (has_char ch x) && none_in r x
  end.

(** A text put in front of the first piece. *)
Definition prepend (p : string) (l : list string) : list string :=
  match l with
  | [] => [p]
  | h :: t => (p +:+ h) :: t
  end.

End JsText.

(** ** types.ts *)

(** The two concrete modes, and the three-valued request. *)
Inductive Mode := Traditional | NextJs.

Inductive GenerationMode := traditional | nextjs | auto.

Inductive Format := png | ico | svg.

Module IconConfig.
Inductive mode_t := only_traditional | only_nextjs | both.
Record t := {
  filename : string;
  size : Z;
  format : Format;
  mode : option mode_t
}.
(** [config.mode === this.mode] *)
Definition mode_is (m : mode_t) (resolved : Mode) : bool :=
  match m, resolved with
  | only_traditional, Traditional | only_nextjs, NextJs => true
  | _, _ => false
  end.
End IconConfig.

Module GeneratorOptions.
Record t := {
  sourcePath : string;
  outputDir : string;
  color : option string;
  mode : option GenerationMode;
  projectRoot : option string
}.
End GeneratorOptions.

Module Framework.
Record t := {
  name : string;
  configFiles : list string;
  publicDir : string;
  appDir : option string
}.
End Framework.

Definition ICON_CONFIGS : list IconConfig.t :=
  let mk f s fmt m :=
    {| IconConfig.filename := f; IconConfig.size := s;
       IconConfig.format := fmt; IconConfig.mode := Some m |} in
  [ mk "favicon.ico" 32%Z ico IconConfig.both;
    mk "icon-192.png" 192%Z png IconConfig.only_traditional;
    mk "icon-512.png" 512%Z png IconConfig.only_traditional;
    mk "apple-touch-icon.png" 180%Z png IconConfig.both;
    mk "icon-maskable.png" 512%Z png IconConfig.only_traditional;
    mk "icon.png" 512%Z png IconConfig.only_nextjs;
    mk "apple-icon.png" 180%Z png IconConfig.only_nextjs ].

Definition FRAMEWORKS : list Framework.t :=
  let mk n cfs p a :=
    {| Framework.name := n; Framework.configFiles := cfs;
       Framework.publicDir := p; Framework.appDir := a |} in
  [ mk "Next.js" ["next.config.js"; "next.config.mjs"; "next.config.ts"] "public" (Some "app");
    mk "Astro" ["astro.config.mjs"; "astro.config.js"; "astro.config.ts"] "public" None;
    mk "SvelteKit" ["svelte.config.js"] "static" None;
    mk "Remix" ["remix.config.js"] "public" None;
    mk "Vite" ["vite.config.js"; "vite.config.ts"] "public" None ].

(** ** IEEE-754 double arithmetic of [Math.floor(size * 0.6)]

    The literal 0.6 denotes the double [mant_0_6 / 2^53].  The product
    of an integer with it is rounded to 53 significant bits, ties to
    even, before [Math.floor] sees it. *)

Module Double.
Local Open Scope Z_scope.

Definition mant_0_6 : Z := 5404319552844595.

(** [n * 0.6] as a fraction [num / 2^53], for [0 <= n < 2^53]. *)
Definition times_0_6 (n : Z) : Z :=
  let p := n * mant_0_6 in
  let bits := Z.log2 p + 1 in
  if bits <=? 53 then p
  else
    let sh := bits - 53 in
    let qt := Z.shiftr p sh in
    let r := Z.land p (Z.shiftl 1 sh - 1) in
    let half := Z.shiftl 1 (sh - 1) in
    let up := (half <? r) || ((r =? half) && Z.odd qt) in
    Z.shiftl (if up then qt + 1 else qt) sh.

Definition floor_times_0_6 (n : Z) : Z := Z.shiftr (times_0_6 n) 53.
End Double.

(** ** generator.ts *)

(** The calls made on a [sharp] instance, and the file-system effects of
    a run.  [generate] is modelled by the sequence of effects of a run in
    which every I/O call succeeds (a failing call throws and ends the
    run); the text that [fs.readFile] returns for the source is an
    argument.  The icons of [Promise.all] write to different files and
    are listed in catalog order. *)
Inductive SharpCall :=
| Resize (w h : Z)
| Extend (top bottom left right : Z)
| ToPng.

Inductive FsOp :=
| Mkdir (dir : string)
| SharpToFile (source : string) (calls : list SharpCall) (out : string)
| Rename (from to : string)
| CopyFile (from to : string)
| WriteFile (path data : string)
| ConsoleWarn (msg : string).

(** The size of the image a pipeline writes: sharp keeps one resize (the
    last one requested) and extends the resized image by the requested
    margins. *)
Definition sharp_output_size (calls : list SharpCall) : Z * Z :=
  let '(w, h, (t, b, l, r)) :=
    fold_left
      (fun st c =>
         match c, st with
         | Resize w h, (_, _, e) => (w, h, e)
         | Extend t b l r, (w, h, _) => (w, h, (t, b, l, r))
         | ToPng, _ => st
         end)
      calls (0, 0, (0, 0, 0, 0))%Z in
  (w + l + r, h + t + b)%Z.

(** The paths of the files that a sequence of effects leaves behind,
    given the paths present before: a pipeline, a copy and a write
    create their target, a rename removes its origin and creates its
    target. *)
Definition files_after_op (files : gset string) (op : FsOp) : gset string :=
  match op with
  | SharpToFile _ _ out => {[ out ]} ∪ files
  | Rename from to => {[ to ]} ∪ (files ∖ {[ from ]})
  | CopyFile _ to => {[ to ]} ∪ files
  | WriteFile path _ => {[ path ]} ∪ files
  | Mkdir _ | ConsoleWarn _ => files
  end.

Definition files_after (ops : list FsOp) (files : gset string) : gset string :=
  fold_left files_after_op ops files.

(** ** JSON values and [JSON.stringify(v, null, 2)] *)

Module Json.
Import JsText.

Inductive t :=
| Str (s : string)
| Arr (items : list t)
| Obj (fields : list (string * t)).

Definition hex_digit (n : nat) : ascii :=
  ascii_of_nat (if (n <? 10)%nat then 48 + n else 87 + n).

Definition quote_char (a : ascii) : string :=
  let n := nat_of_ascii a in
  if Ascii.eqb a dquote then String backslash dq
  else if Ascii.eqb a backslash then String backslash (String backslash EmptyString)
  else if (n =? 8)%nat then String backslash "b"
  else if (n =? 9)%nat then String backslash "t"
  else if (n =? 10)%nat then String backslash "n"
  else if (n =? 12)%nat then String backslash "f"
  else if (n =? 13)%nat then String backslash "r"
  else if (n <? 32)%nat then
    String backslash
      ("u00" +:+ String (hex_digit (n / 16)) (String (hex_digit (n mod 16)) EmptyString))
  else String a EmptyString.

Fixpoint quote_body (s : string) : string :=
  match s with
  | EmptyString => EmptyString
  | String a r => quote_char a +:+ quote_body r
  end.

Definition quote (s : string) : string := dq +:+ quote_body s +:+ dq.

Definition gap : string := "  ".

Fixpoint stringify_at (indent : string) (v : t) : string :=
  let inner := indent +:+ gap in
  let sep := "," +:+ nl +:+ inner in
  match v with
  | Str s => quote s
  | Arr [] => "[]"
  | Arr items =>
    "[" +:+ nl +:+ inner +:+ join sep (map (stringify_at inner) items)
        +:+ nl +:+ indent +:+ "]"
  | Obj [] => "{}"
  | Obj fields =>
    "{" +:+ nl +:+ inner
        +:+ join sep (map (fun kv => quote (fst kv) +:+ ": " +:+ stringify_at inner (snd kv)) fields)
        +:+ nl +:+ indent +:+ "}"
  end.

Definition stringify (v : t) : string := stringify_at EmptyString v.

(** Property access on an object value. *)
Definition get (key : string) (v : t) : option t :=
  match v with
  | Obj fields => snd <$> List.find (fun kv => String.eqb (fst kv) key) fields
  | _ => None
  end.

Definition items (v : t) : option (list t) :=
  match v with
  | Arr l => Some l
  | _ => None
  end.
End Json.

Module IconGenerator.
Import Js JsText.

Record t := {
  options : GeneratorOptions.t;
  mode : Mode
}.

Definition manifest : Json.t :=
  Json.Obj
    [("icons",
      Json.Arr
        [ Json.Obj [("src", Json.Str "/icon-192.png");
                    ("sizes", Json.Str "192x192");
                    ("type", Json.Str "image/png")];
          Json.Obj [("src", Json.Str "/icon-512.png");
                    ("sizes", Json.Str "512x512");
                    ("type", Json.Str "image/png")];
          Json.Obj [("src", Json.Str "/icon-maskable.png");
                    ("sizes", Json.Str "512x512");
                    ("type", Json.Str "image/png");
                    ("purpose", Json.Str "maskable")] ])].

Definition warn_not_svg : string :=
  "⚠️  Source is not SVG. icon.svg and safari-pinned-tab.svg will need to be created manually.".

Definition snippet_nextjs (sourceIsSvg : bool) : string :=
  "<!-- Next.js App Router Mode -->
<!-- Icons are automatically linked by Next.js from the /app directory -->
<!-- No manual <link> tags needed! -->

Generated files in app/:
- favicon.ico (32×32) - automatically linked as /favicon.ico
- icon.png (512×512) - automatically linked with proper metadata
- apple-icon.png (180×180) - automatically linked as apple-touch-icon
" +:+ (if sourceIsSvg then q "- icon.svg - automatically linked with type=`image/svg+xml`"
     else EmptyString) +:+ q "

Next.js will automatically generate these <head> tags:
<link rel=`icon` href=`/favicon.ico` sizes=`any` />
<link rel=`icon` href=`/icon.png` type=`image/png` sizes=`512x512` />
<link rel=`apple-touch-icon` href=`/apple-icon.png` sizes=`180x180` />
" +:+ (if sourceIsSvg then q "<link rel=`icon` href=`/icon.svg` type=`image/svg+xml` />"
     else EmptyString) +:+ "

For PWA support, add site.webmanifest to public/ and reference it in your layout.tsx metadata.".

(** The block of link tags, up to the colour of the mask icon. *)
Definition tags_before_color : string :=
  q "<!-- Favicon (modern + fallback) -->
<link rel=`icon` href=`/icon.svg` type=`image/svg+xml`>
<link rel=`icon` href=`/favicon.ico` sizes=`any`>

<!-- Apple Touch Icon -->
<link rel=`apple-touch-icon` href=`/apple-touch-icon.png`>

<!-- Web App Manifest (PWA) -->
<link rel=`manifest` href=`/site.webmanifest`>

<!-- Safari Pinned Tab -->
<link rel=`mask-icon` href=`/safari-pinned-tab.svg` color=`".

Definition tags_after_color : string := q "`>".

Definition snippet_traditional (color : option string) : string :=
  tags_before_color +:+ or_else color "#5bbad5" +:+ tags_after_color.

Section WithPath.
Context `{NodePath}.

Definition resolveMode (options : GeneratorOptions.t)
    (mode : option GenerationMode) : Mode :=
  match mode with
  | Some auto =>
    let outputDirName := path_basename (GeneratorOptions.outputDir options) in
    if String.eqb outputDirName "app"
       || includes (GeneratorOptions.outputDir options) "/app"
    then NextJs else Traditional
  | Some nextjs => NextJs
  | Some traditional => Traditional
  | None => Traditional
  end.

(** [new IconGenerator(options)] *)
Definition new (options : GeneratorOptions.t) : t :=
  {| options := options;
     mode := resolveMode options
               (Some (default traditional (GeneratorOptions.mode options))) |}.

Definition getMode (this : t) : Mode := mode this.

Definition paddedSize (size : Z) : Z := Double.floor_times_0_6 size.
Definition padding (size : Z) : Z := ((size - paddedSize size) / 2)%Z.

Definition addMaskablePadding (size : Z) : list SharpCall :=
  [ Resize (paddedSize size) (paddedSize size);
    Extend (padding size) (padding size) (padding size) (padding size) ].

Definition generateIcon (this : t) (config : IconConfig.t) : list FsOp :=
  let source := GeneratorOptions.sourcePath (options this) in
  let outputPath :=
    path_join (GeneratorOptions.outputDir (options this)) (IconConfig.filename config) in
  let calls :=
    Resize (IconConfig.size config) (IconConfig.size config)
    :: (if String.eqb (IconConfig.filename config) "icon-maskable.png"
        then addMaskablePadding (IconConfig.size config) else [])
    ++ [ToPng] in
  match IconConfig.format config with
  | ico =>
    [ SharpToFile source calls (replace outputPath ".ico" ".png");
      Rename (replace outputPath ".ico" ".png") outputPath ]
  | _ => [ SharpToFile source calls outputPath ]
  end.

Definition copySVGSource (this : t) : list FsOp :=
  [ CopyFile (GeneratorOptions.sourcePath (options this))
             (path_join (GeneratorOptions.outputDir (options this)) "icon.svg") ].

(** The text written to safari-pinned-tab.svg. *)
Definition monochromeSVG (color : option string) (sourceSVG : string) : string :=
  let monochromeColor := or_else color "#000000" in
  replaceAll (match_attr "stroke") ("stroke=" +:+ dq +:+ monochromeColor +:+ dq)
    (replaceAll (match_attr "fill") ("fill=" +:+ dq +:+ monochromeColor +:+ dq)
       sourceSVG).

Definition generateSafariPinnedTab (this : t) (sourceSVG : string) : list FsOp :=
  [ WriteFile
      (path_join (GeneratorOptions.outputDir (options this)) "safari-pinned-tab.svg")
      (monochromeSVG (GeneratorOptions.color (options this)) sourceSVG) ].

Definition generateManifest (this : t) : list FsOp :=
  [ WriteFile (path_join (GeneratorOptions.outputDir (options this)) "site.webmanifest")
              (Json.stringify manifest) ].

Definition isSourceSVG (this : t) : bool :=
  endsWith (toLowerCase (GeneratorOptions.sourcePath (options this))) ".svg".

Definition instructionsDir (this : t) : string :=
  or_else (GeneratorOptions.projectRoot (options this))
          (GeneratorOptions.outputDir (options this)).

Definition generateHTMLSnippet (this : t) : list FsOp :=
  let snippet :=
    match mode this with
    | NextJs => snippet_nextjs (isSourceSVG this)
    | Traditional => snippet_traditional (GeneratorOptions.color (options this))
    end in
  [ WriteFile (path_join (instructionsDir this) "icon-integration-guide.txt") snippet ].

Definition iconsToGenerate (this : t) : list IconConfig.t :=
  List.filter
    (fun config =>
       match IconConfig.mode config with
       | None | Some IconConfig.both => true
       | Some m => IconConfig.mode_is m (mode this)
       end)
    ICON_CONFIGS.

Definition generate (this : t) (sourceSVG : string) : list FsOp :=
  Mkdir (GeneratorOptions.outputDir (options this))
  :: flat_map (generateIcon this) (iconsToGenerate this)
  ++ (if isSourceSVG this then
        copySVGSource this
        ++ match mode this with
           | Traditional => generateSafariPinnedTab this sourceSVG
           | NextJs => []
           end
      else [ConsoleWarn warn_not_svg])
  ++ match mode this with
     | Traditional => generateManifest this
     | NextJs => []
     end
  ++ generateHTMLSnippet this.

End WithPath.
End IconGenerator.

(** ** The file system

    A path names a file with its text, or a directory.  [fs.access]
    succeeds on whatever exists. *)

Inductive node := File (data : string) | Dir.

Definition access (fs : gmap string node) (p : string) : bool :=
  match fs !! p with
  | Some _ => true
  | None => false
  end.

(** A call returns a value or throws an [Error] with a message. *)
Inductive result (A : Type) :=
| Ok (a : A)
| Throw (message : string).
Arguments Ok {A} a.
Arguments Throw {A} message.

(** ** utils.ts *)

Module FrameworkDetector.
Record t := { cwd : string }.

Section WithPath.
Context `{NodePath}.
Variable fs : gmap string node.

(** The inner loop of [detect]: the framework as soon as one of its
    configuration files is accessible. *)
Fixpoint detect_configFiles (this : t) (framework : Framework.t)
    (configFiles : list string) : option Framework.t :=
  match configFiles with
  | [] => None
  | configFile :: rest =>
    if access fs (path_join (cwd this) configFile) then Some framework
    else detect_configFiles this framework rest
  end.

Fixpoint detect_frameworks (this : t) (frameworks : list Framework.t)
    : option Framework.t :=
  match frameworks with
  | [] => None
  | framework :: rest =>
    match detect_configFiles this framework (Framework.configFiles framework) with
    | Some f => Some f
    | None => detect_frameworks this rest
    end
  end.

Definition detect (this : t) : option Framework.t :=
  detect_frameworks this FRAMEWORKS.

Definition getPublicDir (this : t) : string :=
  match detect this with
  | Some framework => path_join (cwd this) (Framework.publicDir framework)
  | None => path_join (cwd this) "public"
  end.

Definition getAppDir (this : t) : option string :=
  match detect this with
  | Some framework =>
    match Framework.appDir framework with
    | Some (String a r as appDir) =>
      let rootAppDir := path_join (cwd this) appDir in
      if access fs rootAppDir then Some rootAppDir
      else
        let srcAppDir := path_join (path_join (cwd this) "src") appDir in
        if access fs srcAppDir then Some srcAppDir else None
    | _ => None
    end
  | None => None
  end.

Definition hasAppRouter (this : t) : bool :=
  match getAppDir this with
  | Some _ => true
  | None => false
  end.

(** A framework is a candidate when one of its configuration files
    exists directly under the root. *)
Definition has_config (this : FrameworkDetector.t) (framework : Framework.t) : bool :=
  existsb (fun configFile => access fs (path_join (cwd this) configFile))
          (Framework.configFiles framework).
End WithPath.
End FrameworkDetector.

Section Utils.
Context `{NodePath}.
Variable fs : gmap string node.

Fixpoint findAppIcon_loop (cwd : string) (possibleNames : list string)
    : option string :=
  match possibleNames with
  | [] => None
  | name :: rest =>
    let iconPath := path_join cwd name in
    if access fs iconPath then Some iconPath else findAppIcon_loop cwd rest
  end.

Definition findAppIcon (cwd : string) : option string :=
  findAppIcon_loop cwd ["app-icon.svg"; "app-icon.png"].

Definition validExtensions : list string := [".svg"; ".png"; ".jpg"; ".jpeg"].

Definition not_found_error (sourcePath : string) : string :=
  "Source file not found: " +:+ sourcePath.

Definition invalid_format_error : string :=
  "Invalid file format. Supported formats: " +:+ JsText.join ", " validExtensions.

Definition validateSourceFile (sourcePath : string) : result unit :=
  if access fs sourcePath then
    let ext := Js.toLowerCase (path_extname sourcePath) in
    if negb (existsb (String.eqb ext) validExtensions)
    then Throw invalid_format_error
    else Ok tt
  else Throw (not_found_error sourcePath).
End Utils.

(** ** The command line (the mode part of [main]) *)

Module Cli.
Section WithPath.
Context `{NodePath}.

(** The mode given on the command line; anything but the three
    names falls back to auto. *)
Definition validateMode (raw : string) : GenerationMode :=
  if String.eqb raw "traditional" then traditional
  else if String.eqb raw "nextjs" then nextjs
  else auto.

(** The branch taken when an output directory is given:
    [outputDir] is the resolved directory. *)
Definition modeWithOutput (mode : GenerationMode) (outputDir : string)
    : GenerationMode :=
  match mode with
  | auto =>
    let outputBasename := path_basename outputDir in
    if String.eqb outputBasename "app" || Js.includes outputDir "/app"
    then nextjs else traditional
  | _ => mode
  end.

(** The generator that [main] builds for an explicit output
    directory, and the mode it reports. *)
Definition generatorWithOutput (sourcePath outputDir : string)
    (color : option string) (mode : GenerationMode) : IconGenerator.t :=
  IconGenerator.new
    {| GeneratorOptions.sourcePath := sourcePath;
       GeneratorOptions.outputDir := outputDir;
       GeneratorOptions.color := color;
       GeneratorOptions.mode := Some (modeWithOutput mode outputDir);
       GeneratorOptions.projectRoot := None |}.
End WithPath.
End Cli.

(** ** mcp.ts: the HTML integrator *)

Module Mcp.
Import Js JsText.

(** The parsed arguments of the tool; [projectPath] is the resolved
    project directory. *)
Record IntegrateIconsHTML := {
  projectPath : string;
  htmlPath : option string;
  color : option string
}.

Definition iconTags (color : string) : string :=
  IconGenerator.tags_before_color +:+ color +:+ IconGenerator.tags_after_color.

(** The regular expression for the opening head tag, case-insensitive:
    the five characters of the tag name, any run of characters other
    than a closing angle bracket, and the bracket. *)
Fixpoint startsWith_ci (s p : string) {struct p} : bool :=
  match p, s with
  | EmptyString, _ => true
  | String _ _, EmptyString => false
  | String a p', String b s' =>
    Ascii.eqb (lower_ascii a) (lower_ascii b) && startsWith_ci s' p'
  end.

Fixpoint upto_gt (s : string) : option nat :=
  match s with
  | EmptyString => None
  | String a r => if Ascii.eqb a ">"%char then Some O else option_map S (upto_gt r)
  end.

Definition head_at (s : string) : option nat :=
  if startsWith_ci s "<head"
  then option_map (fun k => 5 + k + 1) (upto_gt (drop 5 s))
  else None.

(** [htmlContent.match(re)]: the index of the first match and its
    length. *)
Fixpoint headMatch (s : string) : option (nat * nat) :=
  match head_at s with
  | Some n => Some (O, n)
  | None =>
    match s with
    | EmptyString => None
    | String _ r => (fun m => (S (fst m), snd m)) <$> headMatch r
    end
  end.

(** The text spliced after the head tag. *)
Definition spliced (tags : string) : string :=
  (backslash_n +:+ "  ")
    +:+ join (backslash_n +:+ "  ") (split tags backslash_n)
    +:+ backslash_n.

Definition already_exist_text (rel tags : string) : string :=
  "⚠️ Icon tags appear to already exist in " +:+ rel
    +:+ "\n\nIf you want to update them, please remove the existing icon link tags first, then run this tool again.\n\n📝 Icon tags to add:\n\n"
    +:+ tags.

Definition added_text (rel tags : string) : string :=
  "✅ Successfully added icon tags to " +:+ rel +:+ "\n\nAdded tags:\n"
    +:+ join backslash_n (map (fun line => "  " +:+ line) (split tags backslash_n))
    +:+ "\n\n💡 Make sure your icon files exist in the public directory. Use generate_web_icons or auto_generate_icons to create them.".

Definition no_head_text (rel tags : string) : string :=
  "⚠️ Could not find <head> tag in " +:+ rel
    +:+ "\n\nPlease add these tags manually to your HTML <head>:\n\n" +:+ tags.

Section WithPath.
Context `{NodePath}.

Definition html_candidates : list string :=
  [ "index.html"; "public/index.html"; "src/index.html"; "app/index.html";
    "src/app/layout.tsx"; "src/routes/+layout.svelte";
    "src/pages/_document.tsx"; "app/root.tsx" ].

Fixpoint findHTMLEntryPoint_loop (fs : gmap string node) (projectPath : string)
    (candidates : list string) : option string :=
  match candidates with
  | [] => None
  | candidate :: rest =>
    let candidatePath := path_join projectPath candidate in
    if access fs candidatePath then Some candidatePath
    else findHTMLEntryPoint_loop fs projectPath rest
  end.

Definition findHTMLEntryPoint (fs : gmap string node) (projectPath : string)
    : string :=
  default (path_join projectPath "index.html")
          (findHTMLEntryPoint_loop fs projectPath html_candidates).

(** The file the handler works on. *)
Definition htmlFileOf (fs : gmap string node) (parsed : IntegrateIconsHTML)
    : string :=
  match htmlPath parsed with
  | Some (String a r as p) => path_resolve (projectPath parsed) p
  | _ => findHTMLEntryPoint fs (projectPath parsed)
  end.

(** The handler: its answer (or the error thrown) and the file system
    it leaves. *)
Definition handleIntegrateIconsHTML (fs : gmap string node)
    (parsed : IntegrateIconsHTML) : result string * gmap string node :=
  let color := or_else (color parsed) "#5bbad5" in
  let htmlFile := htmlFileOf fs parsed in
  let rel := path_relative (projectPath parsed) htmlFile in
  match fs !! htmlFile with
  | None => (Throw ("HTML file not found: " +:+ htmlFile), fs)
  | Some Dir => (Throw "EISDIR: illegal operation on a directory, read", fs)
  | Some (File htmlContent) =>
    let iconTags := iconTags color in
    if includes htmlContent "apple-touch-icon" || includes htmlContent "site.webmanifest"
    then (Ok (already_exist_text rel iconTags), fs)
    else
      match headMatch htmlContent with
      | Some (index, len) =>
        let headEndIndex := index + len in
        let updatedHTML :=
          take headEndIndex htmlContent +:+ spliced iconTags
            +:+ drop headEndIndex htmlContent in
        (Ok (added_text rel iconTags), <[htmlFile := File updatedHTML]> fs)
      | None => (Ok (no_head_text rel iconTags), fs)
      end
  end.
End WithPath.
End Mcp.

(** ** mcp.ts: the tools that generate and report *)

(** The arguments of generate_web_icons and of auto_generate_icons as
    the schemas return them, the default colour and mode filled in. *)
Module GenerateWebIconsSchema.
Record t := {
  sourcePath : string;
  outputDir : option string;
  color : string;
  projectPath : option string;
  mode : GenerationMode
}.
End GenerateWebIconsSchema.

(** [projectPath] is the resolved project directory. *)
Module AutoGenerateIconsSchema.
Record t := {
  projectPath : string;
  color : string;
  mode : GenerationMode
}.
End AutoGenerateIconsSchema.

Module McpTools.
Import Js JsText.

Definition REQUIRED_ICONS : list string :=
  [ "favicon.ico"; "icon.svg"; "icon-192.png"; "icon-512.png";
    "apple-touch-icon.png"; "icon-maskable.png"; "safari-pinned-tab.svg";
    "site.webmanifest" ].

Record IconStatus := {
  name : string;
  exists_ : bool;
  path : string
}.

(** A string or null used as a condition. *)
Definition truthy (s : option string) : bool :=
  match s with
  | Some (String _ _) => true
  | _ => false
  end.

Definition no_app_icon_error : string :=
  "No app-icon.svg or app-icon.png found in project directory. Please create one first.".

Definition all_present_tip : string := "🎉 All required icons are present!".
Definition run_auto_tip : string :=
  "💡 Tip: Run auto_generate_icons to create missing icons".
Definition create_icon_tip : string :=
  "💡 Tip: Create app-icon.svg or app-icon.png in project root, then run auto_generate_icons".

Definition statusTip (missing : list IconStatus) (appIcon : option string) : string :=
  if (length missing =? 0)%nat && truthy appIcon then all_present_tip
  else if truthy appIcon && (0 <? length missing)%nat then run_auto_tip
  else if negb (truthy appIcon) then create_icon_tip
  else EmptyString.

Definition statusLines (icons : list IconStatus) : string :=
  fold_left (fun text icon => text +:+ "  - " +:+ name icon +:+ nl) icons EmptyString.

Section WithPath.
Context `{NodePath}.
Variable fs : gmap string node.

(** [framework?.name === 'Next.js'] *)
Definition isNextJs (framework : option Framework.t) : bool :=
  match framework with
  | Some f => String.eqb (Framework.name f) "Next.js"
  | None => false
  end.

(** The mode and the output directory both generating tools choose when
    no output directory is given. *)
Definition modeWithoutOutput (detector : FrameworkDetector.t) (mode : GenerationMode)
    : GenerationMode :=
  let framework := FrameworkDetector.detect fs detector in
  let hasAppRouter := FrameworkDetector.hasAppRouter fs detector in
  match mode with
  | auto => if hasAppRouter && isNextJs framework then nextjs else traditional
  | _ => mode
  end.

Definition outputDirWithoutOutput (detector : FrameworkDetector.t) (mode : GenerationMode)
    : string :=
  let hasAppRouter := FrameworkDetector.hasAppRouter fs detector in
  match mode with
  | nextjs =>
    if hasAppRouter
    then or_else (FrameworkDetector.getAppDir fs detector)
                 (FrameworkDetector.getPublicDir fs detector)
    else FrameworkDetector.getPublicDir fs detector
  | _ => FrameworkDetector.getPublicDir fs detector
  end.

(** [handleGenerateWebIcons] up to the generator it builds; [cwd] is
    the working directory of the process. *)
Definition handleGenerateWebIcons_generator (cwd : string)
    (parsed : GenerateWebIconsSchema.t) : result IconGenerator.t :=
  let projectPath := or_else (GenerateWebIconsSchema.projectPath parsed) cwd in
  let sourcePath := path_resolve projectPath (GenerateWebIconsSchema.sourcePath parsed) in
  match validateSourceFile fs sourcePath with
  | Throw message => Throw message
  | Ok _ =>
    let detector := {| FrameworkDetector.cwd := projectPath |} in
    let mode := GenerateWebIconsSchema.mode parsed in
    let '(mode, outputDir) :=
      match GenerateWebIconsSchema.outputDir parsed with
      | Some (String a r as given) =>
        let outputDir := path_resolve projectPath given in
        (match mode with
         | auto =>
           let outputBasename := path_basename outputDir in
           if String.eqb outputBasename "app" || includes outputDir "/app"
           then nextjs else traditional
         | _ => mode
         end, outputDir)
      | _ =>
        let mode := modeWithoutOutput detector mode in
        (mode, outputDirWithoutOutput detector mode)
      end in
    Ok (IconGenerator.new
          {| GeneratorOptions.sourcePath := sourcePath;
             GeneratorOptions.outputDir := outputDir;
             GeneratorOptions.color := Some (GenerateWebIconsSchema.color parsed);
             GeneratorOptions.mode := Some mode;
             GeneratorOptions.projectRoot := None |})
  end.

(** [handleAutoGenerateIcons] up to the generator it builds. *)
Definition handleAutoGenerateIcons_generator (parsed : AutoGenerateIconsSchema.t)
    : result IconGenerator.t :=
  let projectPath := AutoGenerateIconsSchema.projectPath parsed in
  match findAppIcon fs projectPath with
  | Some (String a r as appIconPath) =>
    let detector := {| FrameworkDetector.cwd := projectPath |} in
    let mode := modeWithoutOutput detector (AutoGenerateIconsSchema.mode parsed) in
    let outputDir := outputDirWithoutOutput detector mode in
    Ok (IconGenerator.new
          {| GeneratorOptions.sourcePath := appIconPath;
             GeneratorOptions.outputDir := outputDir;
             GeneratorOptions.color := Some (AutoGenerateIconsSchema.color parsed);
             GeneratorOptions.mode := Some mode;
             GeneratorOptions.projectRoot := None |})
  | _ => Throw no_app_icon_error
  end.

(** [handleCheckIconsStatus]: the status of each required icon, the two
    lists, and the text of the answer; [projectPath] is the resolved
    project directory. *)
Definition iconStatus (projectPath : string) : list IconStatus :=
  let publicDir :=
    FrameworkDetector.getPublicDir fs {| FrameworkDetector.cwd := projectPath |} in
  map (fun icon =>
         let iconPath := path_join publicDir icon in
         {| name := icon; exists_ := access fs iconPath; path := iconPath |})
      REQUIRED_ICONS.

Definition existing (projectPath : string) : list IconStatus :=
  List.filter (fun i => exists_ i) (iconStatus projectPath).

Definition missing (projectPath : string) : list IconStatus :=
  List.filter (fun i => negb (exists_ i)) (iconStatus projectPath).

Definition countOf (icons : list IconStatus) : string :=
  pretty (length icons) +:+ "/" +:+ pretty (length REQUIRED_ICONS).

Definition handleCheckIconsStatus (projectPath : string) : string :=
  let detector := {| FrameworkDetector.cwd := projectPath |} in
  let framework := FrameworkDetector.detect fs detector in
  let publicDir := FrameworkDetector.getPublicDir fs detector in
  let appIcon := findAppIcon fs projectPath in
  let existing := existing projectPath in
  let missing := missing projectPath in
  ("📊 Icon Status for " +:+ projectPath +:+ nl +:+ nl)
  +:+ match framework with
      | Some f => "Framework: " +:+ Framework.name f +:+ nl
      | None => EmptyString
      end
  +:+ ("Icon directory: " +:+ path_relative projectPath publicDir +:+ "/" +:+ nl +:+ nl)
  +:+ (if truthy appIcon
       then "✓ Source icon found: " +:+ path_basename (default EmptyString appIcon)
              +:+ nl +:+ nl
       else "⚠️  No app-icon.svg or app-icon.png found in project root" +:+ nl +:+ nl)
  +:+ (if (0 <? length existing)%nat
       then "✅ Existing icons (" +:+ countOf existing +:+ "):" +:+ nl
              +:+ statusLines existing +:+ nl
       else EmptyString)
  +:+ (if (0 <? length missing)%nat
       then "❌ Missing icons (" +:+ countOf missing +:+ "):" +:+ nl
              +:+ statusLines missing +:+ nl
       else EmptyString)
  +:+ statusTip missing appIcon.
End WithPath.
End McpTools.

(** ** The vocabulary of the statements *)

(** What the specification asks of the pinned-tab text, attribute by
   attribute: reading the source from left to right, each occurrence of
   the attribute name, an equals sign and a quoted value is rewritten
   with the colour as its value, and every other character is kept. *)

Section Vocabulary.
Import Js JsText.

Inductive Recolored (attr c : string) : string -> string -> Prop :=
| Recolored_end : Recolored attr c EmptyString EmptyString
| Recolored_attr (v rest rest' : string) :
    has_char dquote v = false ->
    Recolored attr c rest rest' ->
    Recolored attr c (attr_open attr +:+ v +:+ dq +:+ rest)
                     (attr_open attr +:+ c +:+ dq +:+ rest')
| Recolored_char (a : ascii) (s s' : string) :
    (~ exists v rest, String a s = attr_open attr +:+ v +:+ dq +:+ rest) ->
    Recolored attr c s s' ->
    Recolored attr c (String a s) (String a s').

(** The source texts of the scenario: some text, a fill attribute,
    some text, a stroke attribute, some text. *)
Definition two_attributes (pre fillValue mid strokeValue post : string) : string :=
  pre +:+ attr_open "fill" +:+ fillValue +:+ dq +:+ mid
      +:+ attr_open "stroke" +:+ strokeValue +:+ dq +:+ post.
End Vocabulary.

(** The file names the program joins to a directory. *)
Definition joined_names : list string :=
  "icon-integration-guide.txt" :: "icon.png" :: "apple-icon.png"
    :: McpTools.REQUIRED_ICONS.

(** A project with one page, and the request of the integrator with
    its defaults. *)
Definition site_with_head : gmap string node :=
  {[ "/srv/site/index.html" := File "<html><head><title>t</title></head></html>" ]}.

Definition integrate_default : Mcp.IntegrateIconsHTML :=
  {| Mcp.projectPath := "/srv/site"; Mcp.htmlPath := None; Mcp.color := None |}.

(** * Properties *)

(** ** Checks of the models of the built-ins *)

Example basename_app : Posix.basename "/srv/site/app" = "app".
Proof. reflexivity. Qed.

Example basename_trailing : Posix.basename "/srv/site/app//" = "app".
Proof. reflexivity. Qed.

Example extname_png : Posix.extname "/srv/Logo.final.PNG" = ".PNG".
Proof. reflexivity. Qed.

Example extname_hidden : Posix.extname "/srv/.bashrc" = "".
Proof. reflexivity. Qed.

Example extname_dir_dot : Posix.extname "/srv/a.b/readme" = "".
Proof. reflexivity. Qed.

Example extname_dotdot : Posix.extname "/srv/.." = "".
Proof. reflexivity. Qed.

Example extname_trailing_dot : Posix.extname "/srv/file." = ".".
Proof. reflexivity. Qed.

Example split_example :
  JsText.split "a, b, c" ", " = ["a"; "b"; "c"].
Proof. reflexivity. Qed.

Example split_trailing : JsText.split "a,b," "," = ["a"; "b"; EmptyString].
Proof. reflexivity. Qed.

Example replace_ico :
  JsText.replace "/srv/my.icons/favicon.ico" ".ico" ".png" = "/srv/my.pngns/favicon.ico".
Proof. reflexivity. Qed.

Example match_attr_example :
  JsText.match_attr "fill" (JsText.q "fill=`#112233` stroke=`red`") = Some 14.
Proof. reflexivity. Qed.

Example floor_5_times_0_6 : Double.floor_times_0_6 5 = 3%Z.
Proof. reflexivity. Qed.

Example floor_512_times_0_6 : Double.floor_times_0_6 512 = 307%Z.
Proof. reflexivity. Qed.

Example floor_180_times_0_6 : Double.floor_times_0_6 180 = 108%Z.
Proof. reflexivity. Qed.

Example stringify_small :
  Json.stringify (Json.Obj [("a", Json.Arr [Json.Str "x"; Json.Str "y"]); ("b", Json.Obj [])])
  = JsText.q "{
  `a`: [
    `x`,
    `y`
  ],
  `b`: {}
}".
Proof. reflexivity. Qed.

Example headMatch_example :
  Mcp.headMatch "<html><HEAD lang=en><title>x</title>" = Some (6, 14).
Proof. reflexivity. Qed.

Example headMatch_none : Mcp.headMatch "<html><body></body></html>" = None.
Proof. reflexivity. Qed.

(** ** Mode resolution *)

Section ModeResolution.
Context `{NodePath}.

Lemma resolveMode_explicit (options : GeneratorOptions.t) :
  IconGenerator.resolveMode options (Some traditional) = Traditional /\
  IconGenerator.resolveMode options (Some nextjs) = NextJs.
Proof. split; reflexivity. Qed.

Lemma resolveMode_auto (options : GeneratorOptions.t) :
  IconGenerator.resolveMode options (Some auto) = NextJs <->
  path_basename (GeneratorOptions.outputDir options) = "app" \/
  Js.includes (GeneratorOptions.outputDir options) "/app" = true.
Proof.
  unfold IconGenerator.resolveMode.
  destruct (String.eqb _ "app") eqn:Hb; simpl.
  - apply String.eqb_eq in Hb. split; auto.
  - apply String.eqb_neq in Hb.
    destruct (Js.includes _ "/app");
      (split; [intros; first [discriminate | auto] | intros [?|?]; congruence]).
Qed.

(** C1, amended: with an output directory given, an explicit mode is
    kept whatever the directory is called; only the auto request is
    decided by the directory (app-router when its basename is app or
    its path contains /app, traditional otherwise). *)
Theorem explicit_mode_kept_auto_follows_path
    (sourcePath outputDir : string) (color : option string) (mode : GenerationMode) :
  IconGenerator.getMode (Cli.generatorWithOutput sourcePath outputDir color mode) =
  match mode with
  | traditional => Traditional
  | nextjs => NextJs
  | auto =>
    if String.eqb (path_basename outputDir) "app" || Js.includes outputDir "/app"
    then NextJs else Traditional
  end.
Proof.
  destruct mode; try reflexivity.
  unfold Cli.generatorWithOutput, Cli.modeWithOutput, IconGenerator.getMode,
    IconGenerator.new; simpl.
  destruct (String.eqb (path_basename outputDir) "app" || Js.includes outputDir "/app");
    reflexivity.
Qed.

(** C8: a generator built without a mode resolves to traditional, as
    one built with the explicit traditional request does, and its
    output directory is never looked at; the auto request on a
    directory called app resolves otherwise. *)
Theorem omitted_mode_is_traditional
    (sourcePath outputDir : string) (color projectRoot : option string) :
  let opts m :=
    {| GeneratorOptions.sourcePath := sourcePath;
       GeneratorOptions.outputDir := outputDir;
       GeneratorOptions.color := color;
       GeneratorOptions.mode := m;
       GeneratorOptions.projectRoot := projectRoot |} in
  IconGenerator.getMode (IconGenerator.new (opts None)) = Traditional /\
  IconGenerator.getMode (IconGenerator.new (opts None)) =
    IconGenerator.getMode (IconGenerator.new (opts (Some traditional))) /\
  (path_basename outputDir = "app" ->
   IconGenerator.getMode (IconGenerator.new (opts (Some auto))) = NextJs).
Proof.
  simpl. repeat split.
  intros Hb. unfold IconGenerator.getMode, IconGenerator.new; simpl.
  rewrite Hb. reflexivity.
Qed.
End ModeResolution.

(** C1 as stated fails: the request is traditional, the output directory
    is called app and contains /app, and the generator still runs in
    traditional mode. *)
Lemma explicit_traditional_in_app_dir_stays_traditional :
  path_basename "/srv/site/app" = "app" /\
  Js.includes "/srv/site/app" "/app" = true /\
  IconGenerator.getMode
    (Cli.generatorWithOutput "/srv/logo.svg" "/srv/site/app" None traditional)
  <> NextJs.
Proof. repeat split. discriminate. Qed.

Example auto_in_app_dir_is_nextjs :
  IconGenerator.getMode
    (Cli.generatorWithOutput "/srv/logo.svg" "/srv/site/app" None auto) = NextJs.
Proof. reflexivity. Qed.

Example omitted_mode_in_app_dir :
  IconGenerator.getMode
    (IconGenerator.new
       {| GeneratorOptions.sourcePath := "/srv/logo.svg";
          GeneratorOptions.outputDir := "/srv/site/app";
          GeneratorOptions.color := None;
          GeneratorOptions.mode := None;
          GeneratorOptions.projectRoot := None |}) = Traditional.
Proof. reflexivity. Qed.

(** ** Maskable padding *)

(** C2: for the catalog size 512 the content is resized to 307 pixels
    and 102 pixels are added on each side, so the pipeline of
    icon-maskable.png writes a 511 by 511 image, one pixel short of the
    declared 512. *)
Theorem maskable_512_is_one_pixel_short :
  let this :=
    IconGenerator.new
      {| GeneratorOptions.sourcePath := "/srv/logo.svg";
         GeneratorOptions.outputDir := "/srv/public";
         GeneratorOptions.color := None;
         GeneratorOptions.mode := Some traditional;
         GeneratorOptions.projectRoot := None |} in
  let config :=
    {| IconConfig.filename := "icon-maskable.png"; IconConfig.size := 512%Z;
       IconConfig.format := png; IconConfig.mode := Some IconConfig.only_traditional |} in
  In config ICON_CONFIGS /\
  IconGenerator.paddedSize 512 = 307%Z /\
  IconGenerator.padding 512 = 102%Z /\
  (IconGenerator.paddedSize 512 + IconGenerator.padding 512 + IconGenerator.padding 512
   = 511)%Z /\
  exists calls,
    IconGenerator.generateIcon this config
      = [SharpToFile "/srv/logo.svg" calls "/srv/public/icon-maskable.png"] /\
    sharp_output_size calls = (511, 511)%Z.
Proof.
  simpl. split; [tauto|].
  repeat split; try reflexivity.
  eexists. split; reflexivity.
Qed.

(** ** The manifest *)

Example manifest_text :
  Json.stringify IconGenerator.manifest = JsText.q "{
  `icons`: [
    {
      `src`: `/icon-192.png`,
      `sizes`: `192x192`,
      `type`: `image/png`
    },
    {
      `src`: `/icon-512.png`,
      `sizes`: `512x512`,
      `type`: `image/png`
    },
    {
      `src`: `/icon-maskable.png`,
      `sizes`: `512x512`,
      `type`: `image/png`,
      `purpose`: `maskable`
    }
  ]
}".
Proof. reflexivity. Qed.

Section Generate.
Context `{NodePath}.
Import IconGenerator.

Lemma generateIcon_ops (this : IconGenerator.t) (config : IconConfig.t) (op : FsOp) :
  In op (generateIcon this config) ->
  (exists s c o, op = SharpToFile s c o) \/ (exists a b, op = Rename a b).
Proof.
  unfold generateIcon. destruct (IconConfig.format config); simpl;
    intros Hin; decompose [or] Hin; subst; try contradiction; eauto.
Qed.

Lemma icons_write_no_text (this : IconGenerator.t) (l : list IconConfig.t)
    (path data : string) :
  ~ In (WriteFile path data) (flat_map (generateIcon this) l).
Proof.
  rewrite in_flat_map. intros (config & _ & Hin).
  apply generateIcon_ops in Hin as [(s & c & o & Heq) | (a & b & Heq)]; discriminate.
Qed.

(** The effects of a run, part by part. *)
Lemma generate_parts (this : IconGenerator.t) (sourceSVG : string) (op : FsOp) :
  In op (generate this sourceSVG) <->
  op = Mkdir (GeneratorOptions.outputDir (options this)) \/
  In op (flat_map (generateIcon this) (iconsToGenerate this)) \/
  In op (if isSourceSVG this then
           copySVGSource this
           ++ match mode this with
              | Traditional => generateSafariPinnedTab this sourceSVG
              | NextJs => []
              end
         else [ConsoleWarn warn_not_svg]) \/
  In op (match mode this with
         | Traditional => generateManifest this
         | NextJs => []
         end) \/
  In op (generateHTMLSnippet this).
Proof.
  unfold generate. cbn [In]. rewrite !in_app_iff. intuition congruence.
Qed.

Lemma manifest_is_not_the_guide (b : bool) :
  snippet_nextjs b <> Json.stringify manifest.
Proof. destruct b; intros Heq; vm_compute in Heq; discriminate Heq. Qed.

(** In app-router mode the only text file written is the guide. *)
Lemma nextjs_text_files (this : IconGenerator.t) (sourceSVG path data : string) :
  mode this = NextJs ->
  In (WriteFile path data) (generate this sourceSVG) ->
  path = path_join (instructionsDir this) "icon-integration-guide.txt" /\
  data = snippet_nextjs (isSourceSVG this).
Proof.
  intros Hm. rewrite generate_parts, Hm.
  intros [Hop | [Hop | [Hop | [Hop | Hop]]]].
  - discriminate.
  - exfalso. revert Hop. apply icons_write_no_text.
  - destruct (isSourceSVG this); simpl in Hop; decompose [or] Hop;
      try contradiction; discriminate.
  - contradiction.
  - unfold generateHTMLSnippet in Hop. rewrite Hm in Hop. simpl in Hop.
    destruct Hop as [Heq | []]. injection Heq as <- <-. split; reflexivity.
Qed.

(** C3: the write of site.webmanifest with the manifest document is
    among the effects of a run exactly when the mode is traditional;
    in app-router mode no file at all receives the manifest document;
    the document lists three icons of sizes 192x192, 512x512 and
    512x512, of which only the last has a purpose, maskable. *)
Theorem manifest_written_only_in_traditional_mode
    (this : IconGenerator.t) (sourceSVG : string) :
  (In (WriteFile (path_join (GeneratorOptions.outputDir (options this)) "site.webmanifest")
                 (Json.stringify manifest))
      (generate this sourceSVG)
   <-> mode this = Traditional) /\
  (mode this = NextJs ->
   forall path, ~ In (WriteFile path (Json.stringify manifest)) (generate this sourceSVG)) /\
  exists e1 e2 e3,
    Json.get "icons" manifest = Some (Json.Arr [e1; e2; e3]) /\
    map (Json.get "sizes") [e1; e2; e3]
      = [Some (Json.Str "192x192"); Some (Json.Str "512x512"); Some (Json.Str "512x512")] /\
    map (Json.get "purpose") [e1; e2; e3] = [None; None; Some (Json.Str "maskable")].
Proof.
  assert (Hnext : mode this = NextJs ->
            forall path, ~ In (WriteFile path (Json.stringify manifest))
                              (generate this sourceSVG)).
  { intros Hm path Hin.
    destruct (nextjs_text_files _ _ _ _ Hm Hin) as [_ Heq].
    symmetry in Heq. revert Heq. apply manifest_is_not_the_guide. }
  split; [|split; [exact Hnext|]].
  - split.
    + intros Hin. destruct (mode this) eqn:Hm; [reflexivity|].
      exfalso. exact (Hnext eq_refl _ Hin).
    + intros Hm. apply generate_parts. right; right; right; left.
      rewrite Hm. left. reflexivity.
  - do 3 eexists. split; [reflexivity|]. split; reflexivity.
Qed.
End Generate.

Lemma manifest_written_witness :
  ~ In (WriteFile "/srv/app/site.webmanifest" (Json.stringify IconGenerator.manifest))
       (IconGenerator.generate
          (Cli.generatorWithOutput "/srv/logo.svg" "/srv/app" None nextjs) "<svg/>").
Proof.
  exact (proj1 (proj2 (manifest_written_only_in_traditional_mode
                         (Cli.generatorWithOutput "/srv/logo.svg" "/srv/app" None nextjs)
                         "<svg/>")) eq_refl "/srv/app/site.webmanifest").
Defined.

Example generate_nextjs_run :
  IconGenerator.generate
    (Cli.generatorWithOutput "/srv/logo.png" "/srv/app" None nextjs) EmptyString
  = [ Mkdir "/srv/app";
      SharpToFile "/srv/logo.png" [Resize 32 32; ToPng] "/srv/app/favicon.png";
      Rename "/srv/app/favicon.png" "/srv/app/favicon.ico";
      SharpToFile "/srv/logo.png" [Resize 180 180; ToPng] "/srv/app/apple-touch-icon.png";
      SharpToFile "/srv/logo.png" [Resize 512 512; ToPng] "/srv/app/icon.png";
      SharpToFile "/srv/logo.png" [Resize 180 180; ToPng] "/srv/app/apple-icon.png";
      ConsoleWarn IconGenerator.warn_not_svg;
      WriteFile "/srv/app/icon-integration-guide.txt" (IconGenerator.snippet_nextjs false) ].
Proof. reflexivity. Qed.

Example generate_traditional_run :
  map (fun op => match op with
                 | Mkdir d => d
                 | SharpToFile _ _ o => o
                 | Rename _ o => o
                 | CopyFile _ o => o
                 | WriteFile o _ => o
                 | ConsoleWarn _ => EmptyString
                 end)
      (IconGenerator.generate
         (Cli.generatorWithOutput "/srv/logo.SVG" "/srv/public" None auto) "<svg/>")
  = [ "/srv/public"; "/srv/public/favicon.png"; "/srv/public/favicon.ico";
      "/srv/public/icon-192.png"; "/srv/public/icon-512.png";
      "/srv/public/apple-touch-icon.png"; "/srv/public/icon-maskable.png";
      "/srv/public/icon.svg"; "/srv/public/safari-pinned-tab.svg";
      "/srv/public/site.webmanifest"; "/srv/public/icon-integration-guide.txt" ].
Proof. reflexivity. Qed.

(** ** Source validation *)

Section Validation.
Context `{NodePath}.
Variable fs : gmap string node.

Lemma valid_extension_iff (ext : string) :
  existsb (String.eqb ext) validExtensions = true <-> In ext validExtensions.
Proof.
  rewrite existsb_exists. split.
  - intros (x & Hin & Heq). apply String.eqb_eq in Heq. subst. exact Hin.
  - intros Hin. exists ext. split; [exact Hin | apply String.eqb_refl].
Qed.

Lemma errors_differ (sourcePath : string) :
  not_found_error sourcePath <> invalid_format_error.
Proof. discriminate. Qed.

(** C4: an inaccessible path fails with the not-found error; an
    accessible one fails with the format error exactly when its
    lowered extension is none of .svg, .png, .jpg, .jpeg, and returns
    nothing otherwise. *)
Theorem validateSourceFile_cases (sourcePath : string) :
  (access fs sourcePath = false ->
   validateSourceFile fs sourcePath = Throw (not_found_error sourcePath)) /\
  (access fs sourcePath = true ->
   (validateSourceFile fs sourcePath = Throw invalid_format_error <->
    ~ In (Js.toLowerCase (path_extname sourcePath)) [".svg"; ".png"; ".jpg"; ".jpeg"]) /\
   (validateSourceFile fs sourcePath = Ok tt <->
    In (Js.toLowerCase (path_extname sourcePath)) [".svg"; ".png"; ".jpg"; ".jpeg"])).
Proof.
  unfold validateSourceFile. split; intros Hacc; rewrite Hacc; [reflexivity|].
  pose proof (valid_extension_iff (Js.toLowerCase (path_extname sourcePath))) as Hext.
  unfold validExtensions in Hext.
  destruct (existsb _ _); cbn [negb].
  - split; split; try tauto; try discriminate.
  - assert (Hn : ~ In (Js.toLowerCase (path_extname sourcePath))
                     [".svg"; ".png"; ".jpg"; ".jpeg"]).
    { intros Hin. apply Hext in Hin. discriminate. }
    split; split; try tauto; try discriminate.
Qed.
End Validation.

Lemma validateSourceFile_witness :
  let fs : gmap string node :=
    {[ "/srv/Logo.PNG" := File "png"; "/srv/notes.txt" := File "text" ]} in
  validateSourceFile fs "/srv/missing.svg" = Throw "Source file not found: /srv/missing.svg" /\
  validateSourceFile fs "/srv/Logo.PNG" = Ok tt /\
  validateSourceFile fs "/srv/notes.txt"
    = Throw "Invalid file format. Supported formats: .svg, .png, .jpg, .jpeg".
Proof.
  intros fs.
  assert (Hpng : access fs "/srv/Logo.PNG" = true) by (vm_compute; reflexivity).
  assert (Htxt : access fs "/srv/notes.txt" = true) by (vm_compute; reflexivity).
  split; [|split].
  - apply (proj1 (validateSourceFile_cases fs "/srv/missing.svg")).
    vm_compute; reflexivity.
  - apply (proj2 (validateSourceFile_cases fs "/srv/Logo.PNG") Hpng).
    vm_compute. tauto.
  - apply (proj2 (validateSourceFile_cases fs "/srv/notes.txt") Htxt).
    vm_compute. intros Hin; decompose [or] Hin; discriminate || contradiction.
Defined.

(** ** Framework detection *)

Section Detection.
Context `{NodePath}.
Variable fs : gmap string node.
Import FrameworkDetector.

Lemma detect_configFiles_existsb this framework configFiles :
  detect_configFiles fs this framework configFiles =
  if existsb (fun configFile => access fs (path_join (cwd this) configFile)) configFiles
  then Some framework else None.
Proof.
  induction configFiles as [|configFile rest IH]; simpl; [reflexivity|].
  destruct (access fs (path_join (cwd this) configFile)); simpl; [reflexivity | exact IH].
Qed.

Lemma detect_frameworks_find this frameworks :
  detect_frameworks fs this frameworks = List.find (has_config fs this) frameworks.
Proof.
  induction frameworks as [|framework rest IH]; simpl; [reflexivity|].
  rewrite detect_configFiles_existsb. fold (has_config fs this framework).
  destruct (has_config fs this framework); [reflexivity | exact IH].
Qed.

Lemma detect_none_iff this :
  detect fs this = None <->
  forall framework configFile,
    In framework FRAMEWORKS -> In configFile (Framework.configFiles framework) ->
    access fs (path_join (cwd this) configFile) = false.
Proof.
  unfold detect. rewrite detect_frameworks_find. split.
  - intros Hnone framework configFile Hf Hc.
    pose proof (find_none _ _ Hnone framework Hf) as Hno.
    unfold has_config in Hno.
    destruct (access fs (path_join (cwd this) configFile)) eqn:Hacc; [|reflexivity].
    assert (Hex : existsb (fun configFile => access fs (path_join (cwd this) configFile))
                          (Framework.configFiles framework) = true).
    { apply existsb_exists. exists configFile. split; assumption. }
    congruence.
  - intros Hall. destruct (List.find _ _) as [framework|] eqn:Hfind; [|reflexivity].
    apply find_some in Hfind as [Hin Hhas].
    unfold has_config in Hhas. apply existsb_exists in Hhas as (configFile & Hc & Hacc).
    rewrite (Hall framework configFile Hin Hc) in Hacc. discriminate.
Qed.

(** C5: detection is the first framework of the catalog with an
    existing configuration file, and none when no candidate file
    exists.  When astro.config.mjs exists and no Next.js file does,
    the result is Astro, the static directory is public under the
    root, and there is no app router whatever else the root holds. *)
Theorem detect_first_framework_with_config (this : FrameworkDetector.t) :
  detect fs this = List.find (has_config fs this) FRAMEWORKS /\
  (detect fs this = None <->
   forall framework configFile,
     In framework FRAMEWORKS -> In configFile (Framework.configFiles framework) ->
     access fs (path_join (cwd this) configFile) = false) /\
  (access fs (path_join (cwd this) "astro.config.mjs") = true ->
   (forall configFile,
      In configFile ["next.config.js"; "next.config.mjs"; "next.config.ts"] ->
      access fs (path_join (cwd this) configFile) = false) ->
   exists framework,
     detect fs this = Some framework /\
     Framework.name framework = "Astro" /\
     Framework.publicDir framework = "public" /\
     getPublicDir fs this = path_join (cwd this) "public" /\
     Framework.appDir framework = None /\
     getAppDir fs this = None /\
     hasAppRouter fs this = false).
Proof.
  split; [apply detect_frameworks_find|]. split; [apply detect_none_iff|].
  intros Hastro Hnext.
  assert (Hdet : detect fs this = nth_error FRAMEWORKS 1).
  { unfold detect. rewrite detect_frameworks_find. unfold has_config. simpl.
    rewrite !Hnext by (simpl; tauto). rewrite Hastro. reflexivity. }
  simpl in Hdet. eexists. split; [exact Hdet|].
  unfold hasAppRouter, getAppDir, getPublicDir. rewrite Hdet. simpl.
  repeat split.
Qed.
End Detection.

Lemma detect_astro_witness :
  let fs : gmap string node :=
    {[ "/srv/site/astro.config.mjs" := File "export default {}";
       "/srv/site/app" := Dir ]} in
  let this := {| FrameworkDetector.cwd := "/srv/site" |} in
  access fs "/srv/site/app" = true /\
  Framework.name <$> FrameworkDetector.detect fs this = Some "Astro" /\
  FrameworkDetector.getPublicDir fs this = "/srv/site/public" /\
  FrameworkDetector.hasAppRouter fs this = false.
Proof.
  intros fs this.
  assert (Hastro : access fs (path_join (FrameworkDetector.cwd this) "astro.config.mjs") = true)
    by (vm_compute; reflexivity).
  assert (Hnext : forall configFile,
             In configFile ["next.config.js"; "next.config.mjs"; "next.config.ts"] ->
             access fs (path_join (FrameworkDetector.cwd this) configFile) = false).
  { intros configFile Hin. simpl in Hin. decompose [or] Hin; subst;
      try contradiction; vm_compute; reflexivity. }
  destruct (proj2 (proj2 (detect_first_framework_with_config fs this)) Hastro Hnext)
    as (framework & Hdet & Hname & _ & Hpub & _ & _ & Hrouter).
  split; [vm_compute; reflexivity|].
  split; [rewrite Hdet; simpl; rewrite Hname; reflexivity|].
  split; [rewrite Hpub; reflexivity | exact Hrouter].
Defined.

Example detect_next_with_src_app :
  let fs : gmap string node :=
    {[ "/srv/site/next.config.mjs" := File "x"; "/srv/site/src/app" := Dir;
       "/srv/site/astro.config.mjs" := File "y" ]} in
  let this := {| FrameworkDetector.cwd := "/srv/site" |} in
  Framework.name <$> FrameworkDetector.detect fs this = Some "Next.js" /\
  FrameworkDetector.getAppDir fs this = Some "/srv/site/src/app".
Proof. vm_compute. split; reflexivity. Qed.

(** ** The source icon of a project *)

Section AppIcon.
Context `{NodePath}.
Variable fs : gmap string node.

(** C10: the vector icon is probed first.  With both files present the
    result is the path of app-icon.svg; the path of app-icon.png is
    the result of the second probe, reached only when the first one
    failed; the result is null exactly when neither file exists. *)
Theorem findAppIcon_svg_first (cwd : string) :
  let svgPath := path_join cwd "app-icon.svg" in
  let pngPath := path_join cwd "app-icon.png" in
  findAppIcon fs cwd =
    (if access fs svgPath then Some svgPath
     else if access fs pngPath then Some pngPath else None) /\
  (access fs svgPath = true -> access fs pngPath = true ->
   findAppIcon fs cwd = Some svgPath) /\
  (access fs svgPath = false -> access fs pngPath = true ->
   findAppIcon fs cwd = Some pngPath) /\
  (svgPath <> pngPath -> findAppIcon fs cwd = Some pngPath ->
   access fs svgPath = false) /\
  (findAppIcon fs cwd = None <->
   access fs svgPath = false /\ access fs pngPath = false).
Proof.
  unfold findAppIcon. simpl.
  destruct (access fs (path_join cwd "app-icon.svg")),
           (access fs (path_join cwd "app-icon.png")); simpl;
    repeat split; intros; try discriminate; try reflexivity; try tauto;
    try congruence; intuition discriminate.
Qed.
End AppIcon.

Lemma findAppIcon_witness :
  let both : gmap string node :=
    {[ "/srv/site/app-icon.svg" := File "<svg/>"; "/srv/site/app-icon.png" := File "png" ]} in
  let png_only : gmap string node := {[ "/srv/site/app-icon.png" := File "png" ]} in
  findAppIcon both "/srv/site" = Some "/srv/site/app-icon.svg" /\
  findAppIcon png_only "/srv/site" = Some "/srv/site/app-icon.png" /\
  findAppIcon (∅ : gmap string node) "/srv/site" = None.
Proof.
  intros both png_only.
  assert (Hsvg : access both "/srv/site/app-icon.svg" = true) by (vm_compute; reflexivity).
  assert (Hpng : access both "/srv/site/app-icon.png" = true) by (vm_compute; reflexivity).
  assert (Hsvg' : access png_only "/srv/site/app-icon.svg" = false)
    by (vm_compute; reflexivity).
  assert (Hpng' : access png_only "/srv/site/app-icon.png" = true)
    by (vm_compute; reflexivity).
  assert (Hnone : access (∅ : gmap string node) "/srv/site/app-icon.svg" = false /\
                  access (∅ : gmap string node) "/srv/site/app-icon.png" = false)
    by (split; vm_compute; reflexivity).
  split; [|split].
  - exact (proj1 (proj2 (findAppIcon_svg_first both "/srv/site")) Hsvg Hpng).
  - exact (proj1 (proj2 (proj2 (findAppIcon_svg_first png_only "/srv/site"))) Hsvg' Hpng').
  - exact (proj2 (proj2 (proj2 (proj2 (proj2 (findAppIcon_svg_first ∅ "/srv/site"))))) Hnone).
Defined.

(** ** Facts about texts *)

Section TextFacts.
Import Js JsText.

Lemma append_assoc (a b c : string) : (a +:+ b) +:+ c = a +:+ (b +:+ c).
Proof. induction a as [|x a IH]; simpl; [reflexivity | rewrite IH; reflexivity]. Qed.

Lemma append_empty_r (a : string) : a +:+ EmptyString = a.
Proof. induction a as [|x a IH]; simpl; [reflexivity | rewrite IH; reflexivity]. Qed.

Lemma length_append (a b : string) :
  String.length (a +:+ b) = String.length a + String.length b.
Proof. induction a as [|x a IH]; simpl; [reflexivity | rewrite IH; reflexivity]. Qed.

Lemma take_drop (n : nat) (s : string) : take n s +:+ drop n s = s.
Proof.
  revert s. induction n as [|n IH]; intros [|a s]; simpl; try reflexivity.
  rewrite IH. reflexivity.
Qed.

Lemma drop_append (a b : string) : drop (String.length a) (a +:+ b) = b.
Proof. induction a as [|x a IH]; simpl; [destruct b; reflexivity | exact IH]. Qed.

Lemma startsWith_append (p t : string) : startsWith (p +:+ t) p = true.
Proof.
  induction p as [|x p IH]; simpl; [reflexivity|].
  rewrite Ascii.eqb_refl. exact IH.
Qed.

Lemma startsWith_inv (s p : string) :
  startsWith s p = true -> exists t, s = p +:+ t.
Proof.
  revert s. induction p as [|x p IH]; intros s Hs; simpl in *.
  - exists s. reflexivity.
  - destruct s as [|y s]; [discriminate|].
    apply andb_true_iff in Hs as [Hxy Hrest].
    apply Ascii.eqb_eq in Hxy. subst y.
    destruct (IH s Hrest) as [t ->]. exists t. reflexivity.
Qed.

Lemma startsWith_iff (s p : string) :
  startsWith s p = true <-> exists t, s = p +:+ t.
Proof.
  split; [apply startsWith_inv|]. intros [t ->]. apply startsWith_append.
Qed.

Lemma startsWith_app_l (a b x : string) :
  startsWith a x = true -> startsWith (a +:+ b) x = true.
Proof.
  intros Hs. apply startsWith_inv in Hs as [t ->].
  rewrite append_assoc. apply startsWith_append.
Qed.

Lemma includes_app_l (a b x : string) :
  includes a x = true -> includes (a +:+ b) x = true.
Proof.
  induction a as [|y a IH]; simpl.
  - rewrite orb_false_r. intros Hs. destruct x; [|discriminate].
    destruct b; reflexivity.
  - intros Hs. apply orb_true_iff in Hs as [Hs | Hs].
    + apply (startsWith_app_l (String y a) b) in Hs. simpl in Hs. rewrite Hs. reflexivity.
    + rewrite (IH Hs). apply orb_true_r.
Qed.

Lemma includes_app_r (a b x : string) :
  includes b x = true -> includes (a +:+ b) x = true.
Proof.
  intros Hs. induction a as [|y a IH]; simpl; [exact Hs|].
  rewrite IH. apply orb_true_r.
Qed.

Lemma includes_false_inv (a : ascii) (s x : string) :
  includes (String a s) x = false ->
  startsWith (String a s) x = false /\ includes s x = false.
Proof. simpl. intros Hs. apply orb_false_iff in Hs. exact Hs. Qed.

Lemma has_char_append (c : ascii) (a b : string) :
  has_char c (a +:+ b) = has_char c a || has_char c b.
Proof.
  induction a as [|x a IH]; simpl; [reflexivity|].
  rewrite IH. apply orb_assoc.
Qed.

(** *** split and join *)

Lemma split_from_absent (sep s : string) :
  includes s sep = false -> split_from sep 0 s = [s].
Proof.
  induction s as [|a s IH]; simpl; [reflexivity|].
  intros Hs. apply orb_false_iff in Hs as [Hstart Hrest].
  rewrite Hstart, (IH Hrest). reflexivity.
Qed.

Lemma split_absent (sep s : string) :
  includes s sep = false -> split s sep = [s].
Proof.
  intros Hs. destruct sep as [|c sep].
  - destruct s; discriminate.
  - apply split_from_absent. exact Hs.
Qed.

Lemma split_from_prepend (c : ascii) (sep p s : string) :
  has_char c p = false ->
  split_from (String c sep) 0 (p +:+ s) = prepend p (split_from (String c sep) 0 s).
Proof.
  induction p as [|a p IH]; intros Hp.
  - simpl. destruct (split_from (String c sep) 0 s) as [|h t] eqn:Hsplit.
    + destruct s; simpl in Hsplit; [discriminate|].
      destruct (_ && _); [discriminate|].
      destruct (split_from _ 0 s); discriminate.
    + reflexivity.
  - simpl in Hp. apply orb_false_iff in Hp as [Hac Hp].
    cbn [String.append split_from startsWith].
    rewrite Ascii.eqb_sym, Hac. cbn [andb].
    rewrite (IH Hp).
    destruct (split_from (String c sep) 0 s); reflexivity.
Qed.

Lemma join_prepend (sep p : string) (l : list string) :
  join sep (prepend p l) = p +:+ join sep l.
Proof.
  destruct l as [|h [|h' t]]; simpl.
  - rewrite append_empty_r. reflexivity.
  - reflexivity.
  - rewrite append_assoc. reflexivity.
Qed.
End TextFacts.

(** ** The HTML integrator *)

Section Integrator.
Context `{NodePath}.
Import Js JsText Mcp.

Lemma access_insert_existing (fs : gmap string node) (p q : string) (old new : node) :
  fs !! p = Some old -> access (<[p := new]> fs) q = access fs q.
Proof.
  intros Hp. unfold access. destruct (decide (p = q)) as [->|Hne].
  - rewrite lookup_insert_eq, Hp. reflexivity.
  - rewrite lookup_insert_ne by exact Hne. reflexivity.
Qed.

Lemma htmlFileOf_insert (fs : gmap string node) (parsed : IntegrateIconsHTML)
    (p : string) (old new : node) :
  fs !! p = Some old -> htmlFileOf (<[p := new]> fs) parsed = htmlFileOf fs parsed.
Proof.
  intros Hp. unfold htmlFileOf, findHTMLEntryPoint.
  destruct (htmlPath parsed) as [[|a r]|]; try reflexivity;
    f_equal; induction html_candidates as [|c l IH]; simpl; try reflexivity;
    rewrite (access_insert_existing _ _ _ _ _ Hp), IH; reflexivity.
Qed.

Lemma tags_have_signature :
  includes IconGenerator.tags_before_color "apple-touch-icon" = true.
Proof. vm_compute. reflexivity. Qed.

Lemma tags_have_no_backslash :
  has_char backslash IconGenerator.tags_before_color = false.
Proof. vm_compute. reflexivity. Qed.

(** Whatever the colour, the spliced text carries the signature. *)
Lemma spliced_has_signature (color : string) :
  includes (spliced (iconTags color)) "apple-touch-icon" = true.
Proof.
  unfold spliced, iconTags, split, backslash_n.
  rewrite (split_from_prepend _ _ _ _ tags_have_no_backslash), join_prepend.
  apply includes_app_r. apply includes_app_l. apply includes_app_l.
  exact tags_have_signature.
Qed.

Lemma includes_skip_prefix (c : ascii) (x p s : string) :
  has_char c p = false -> includes (p +:+ s) (String c x) = includes s (String c x).
Proof.
  induction p as [|a p IH]; simpl; [reflexivity|].
  intros Hp. apply orb_false_iff in Hp as [Hac Hp].
  rewrite Ascii.eqb_sym, Hac, (IH Hp). reflexivity.
Qed.

Lemma includes_before_tag_end (s : string) :
  includes s backslash_n = false ->
  includes (s +:+ IconGenerator.tags_after_color) backslash_n = false.
Proof.
  induction s as [|a s IH]; [intros _; vm_compute; reflexivity|].
  intros Hs. apply includes_false_inv in Hs as [Hstart Hrest].
  cbn [String.append includes]. rewrite (IH Hrest), orb_false_r.
  unfold backslash_n in *. cbn [startsWith] in *.
  destruct (Ascii.eqb backslash a); [|reflexivity]. cbn [andb] in *.
  destruct s as [|b s]; [vm_compute; reflexivity|].
  cbn [String.append]. destruct (Ascii.eqb "n" b); [discriminate | reflexivity].
Qed.

Lemma iconTags_without_delimiter (color : string) :
  includes color backslash_n = false ->
  includes (iconTags color) backslash_n = false.
Proof.
  intros Hc. unfold iconTags, backslash_n.
  rewrite (includes_skip_prefix _ _ _ _ tags_have_no_backslash).
  apply includes_before_tag_end. exact Hc.
Qed.

Lemma spliced_without_delimiter (tags : string) :
  includes tags backslash_n = false ->
  spliced tags = backslash_n +:+ "  " +:+ tags +:+ backslash_n.
Proof.
  intros Ht. unfold spliced. rewrite (split_absent _ _ Ht). simpl join.
  rewrite append_assoc. reflexivity.
Qed.

(** The regular expression search returns its first match. *)
Lemma headMatch_first (s : string) (index len : nat) :
  headMatch s = Some (index, len) ->
  head_at (drop index s) = Some len /\
  forall j, j < index -> head_at (drop j s) = None.
Proof.
  revert index. induction s as [|a s IH]; intros index Hm.
  - discriminate.
  - cbn [headMatch] in Hm. destruct (head_at (String a s)) eqn:Hh.
    + injection Hm as <- <-. split; [exact Hh | intros j Hj; lia].
    + destruct (headMatch s) as [[i n]|] eqn:Hs; [|discriminate].
      simpl in Hm. injection Hm as <- <-.
      destruct (IH i eq_refl) as [Hat Hbefore]. split; [exact Hat|].
      intros [|j] Hj; [exact Hh | apply Hbefore; lia].
Qed.

Lemma spliced_not_empty (tags : string) : String.length (spliced tags) > 0.
Proof. unfold spliced. simpl. lia. Qed.

Lemma splice_changes (n : nat) (s ins : string) :
  String.length ins > 0 -> take n s +:+ ins +:+ drop n s <> s.
Proof.
  intros Hlen Heq. apply (f_equal String.length) in Heq.
  rewrite <- (take_drop n s) in Heq at 3.
  rewrite !length_append in Heq. lia.
Qed.
End Integrator.

Section IntegratorProperties.
Context `{NodePath}.
Import Js JsText Mcp.

Lemma handle_on_file (fs : gmap string node) (parsed : IntegrateIconsHTML)
    (htmlContent : string) :
  fs !! htmlFileOf fs parsed = Some (File htmlContent) ->
  handleIntegrateIconsHTML fs parsed =
  let htmlFile := htmlFileOf fs parsed in
  let rel := path_relative (projectPath parsed) htmlFile in
  let tags := iconTags (or_else (color parsed) "#5bbad5") in
  if includes htmlContent "apple-touch-icon" || includes htmlContent "site.webmanifest"
  then (Ok (already_exist_text rel tags), fs)
  else
    match headMatch htmlContent with
    | Some (index, len) =>
      (Ok (added_text rel tags),
       <[htmlFile :=
           File (take (index + len) htmlContent +:+ spliced tags
                   +:+ drop (index + len) htmlContent)]> fs)
    | None => (Ok (no_head_text rel tags), fs)
    end.
Proof.
  intros Hfile. unfold handleIntegrateIconsHTML. cbv zeta. rewrite Hfile.
  destruct (includes htmlContent "apple-touch-icon" || includes htmlContent "site.webmanifest");
    [reflexivity|].
  destruct (headMatch htmlContent) as [[index len]|]; reflexivity.
Qed.

(** C6: a file that already has one of the two signatures is answered
    with the already-exist text and the file system is left as it
    was; a file without them and with a head tag is rewritten by the
    first call, and the second call on the result answers
    already-exist and leaves it as the first call made it. *)
Theorem integrate_is_idempotent (fs : gmap string node)
    (parsed : IntegrateIconsHTML) (htmlContent : string) :
  let htmlFile := htmlFileOf fs parsed in
  let rel := path_relative (projectPath parsed) htmlFile in
  let tags := iconTags (or_else (color parsed) "#5bbad5") in
  fs !! htmlFile = Some (File htmlContent) ->
  (includes htmlContent "apple-touch-icon" || includes htmlContent "site.webmanifest" = true ->
   handleIntegrateIconsHTML fs parsed = (Ok (already_exist_text rel tags), fs)) /\
  (includes htmlContent "apple-touch-icon" || includes htmlContent "site.webmanifest" = false ->
   forall index len, headMatch htmlContent = Some (index, len) ->
   exists updatedHTML,
     updatedHTML <> htmlContent /\
     handleIntegrateIconsHTML fs parsed
       = (Ok (added_text rel tags), <[htmlFile := File updatedHTML]> fs) /\
     handleIntegrateIconsHTML (<[htmlFile := File updatedHTML]> fs) parsed
       = (Ok (already_exist_text rel tags), <[htmlFile := File updatedHTML]> fs)).
Proof.
  cbv zeta. intros Hfile. rewrite (handle_on_file _ _ _ Hfile). cbv zeta. split.
  - intros Hsig. rewrite Hsig. reflexivity.
  - intros Hsig index len Hhead. rewrite Hsig, Hhead.
    eexists. split; [|split; [reflexivity|]].
    + apply splice_changes. apply spliced_not_empty.
    + pose proof (htmlFileOf_insert fs parsed (htmlFileOf fs parsed) (File htmlContent)
                    (File (take (index + len) htmlContent
                             +:+ spliced (iconTags (or_else (color parsed) "#5bbad5"))
                             +:+ drop (index + len) htmlContent)) Hfile) as Hsame.
      rewrite (handle_on_file _ _
                 (take (index + len) htmlContent
                    +:+ spliced (iconTags (or_else (color parsed) "#5bbad5"))
                    +:+ drop (index + len) htmlContent)).
      * cbv zeta. rewrite Hsame.
        rewrite (includes_app_r (take (index + len) htmlContent) _ "apple-touch-icon"
                   (includes_app_l _ _ _ (spliced_has_signature _))).
        reflexivity.
      * rewrite Hsame. apply lookup_insert_eq.
Qed.

(** C9, amended: when the colour does not contain the two characters
    backslash and n, the text put right after the first head tag is
    backslash, n and two spaces, then the block of tags as it is, then
    backslash and n; the tag is the first match of the expression and
    nothing else of the file changes. *)
Theorem splice_uses_literal_backslash_n (fs : gmap string node)
    (parsed : IntegrateIconsHTML) (htmlContent : string) (index len : nat) :
  let htmlFile := htmlFileOf fs parsed in
  let tags := iconTags (or_else (color parsed) "#5bbad5") in
  fs !! htmlFile = Some (File htmlContent) ->
  includes htmlContent "apple-touch-icon" || includes htmlContent "site.webmanifest" = false ->
  headMatch htmlContent = Some (index, len) ->
  includes (or_else (color parsed) "#5bbad5") backslash_n = false ->
  snd (handleIntegrateIconsHTML fs parsed) =
    <[htmlFile :=
        File (take (index + len) htmlContent
                +:+ (backslash_n +:+ "  " +:+ tags +:+ backslash_n)
                +:+ drop (index + len) htmlContent)]> fs /\
  head_at (drop index htmlContent) = Some len /\
  (forall j, j < index -> head_at (drop j htmlContent) = None) /\
  has_char "010"%char (backslash_n +:+ "  ") = false /\
  has_char "010"%char backslash_n = false /\
  split tags backslash_n = [tags].
Proof.
  cbv zeta. intros Hfile Hsig Hhead Hcolor.
  pose proof (iconTags_without_delimiter _ Hcolor) as Htags.
  rewrite (handle_on_file _ _ _ Hfile). cbv zeta. rewrite Hsig, Hhead.
  rewrite (spliced_without_delimiter _ Htags).
  destruct (headMatch_first _ _ _ Hhead) as [Hat Hbefore].
  repeat split; try assumption. apply split_absent. exact Htags.
Qed.
End IntegratorProperties.

Lemma integrate_is_idempotent_witness :
  exists updatedHTML,
    updatedHTML <> "<html><head><title>t</title></head></html>" /\
    snd (Mcp.handleIntegrateIconsHTML site_with_head integrate_default)
      = <["/srv/site/index.html" := File updatedHTML]> site_with_head /\
    snd (Mcp.handleIntegrateIconsHTML
           (<["/srv/site/index.html" := File updatedHTML]> site_with_head) integrate_default)
      = <["/srv/site/index.html" := File updatedHTML]> site_with_head.
Proof.
  assert (Hfile : site_with_head !! Mcp.htmlFileOf site_with_head integrate_default
                  = Some (File "<html><head><title>t</title></head></html>"))
    by (vm_compute; reflexivity).
  destruct (proj2 (integrate_is_idempotent site_with_head integrate_default _ Hfile)
              ltac:(vm_compute; reflexivity) 6 6 ltac:(vm_compute; reflexivity))
    as (updatedHTML & Hne & Hfirst & Hsecond).
  assert (Hpath : Mcp.htmlFileOf site_with_head integrate_default = "/srv/site/index.html")
    by (vm_compute; reflexivity).
  rewrite Hpath in Hfirst, Hsecond.
  exists updatedHTML. split; [exact Hne|].
  split; [rewrite Hfirst | rewrite Hsecond]; reflexivity.
Defined.

Lemma splice_uses_literal_backslash_n_witness :
  snd (Mcp.handleIntegrateIconsHTML site_with_head integrate_default) !! "/srv/site/index.html"
  = Some (File ("<html><head>\n  " +:+ Mcp.iconTags "#5bbad5"
                  +:+ "\n<title>t</title></head></html>")).
Proof.
  assert (Hfile : site_with_head !! Mcp.htmlFileOf site_with_head integrate_default
                  = Some (File "<html><head><title>t</title></head></html>"))
    by (vm_compute; reflexivity).
  rewrite (proj1 (splice_uses_literal_backslash_n site_with_head integrate_default _ 6 6
                    Hfile ltac:(vm_compute; reflexivity) ltac:(vm_compute; reflexivity)
                    ltac:(vm_compute; reflexivity))).
  vm_compute. reflexivity.
Defined.

(** C9 as stated fails for a colour that contains backslash and n: the
    split cuts the block inside the colour and the join adds two spaces
    there, so the block is not spliced as it is. *)
Lemma splice_indents_inside_color :
  let parsed :=
    {| Mcp.projectPath := "/srv/site"; Mcp.htmlPath := None;
       Mcp.color := Some "#fff\nb" |} in
  let tags := Mcp.iconTags "#fff\nb" in
  Js.includes tags JsText.backslash_n = true /\
  snd (Mcp.handleIntegrateIconsHTML site_with_head parsed) !! "/srv/site/index.html"
    <> Some (File ("<html><head>" +:+ (JsText.backslash_n +:+ "  " +:+ tags +:+ JsText.backslash_n)
                     +:+ "<title>t</title></head></html>")) /\
  snd (Mcp.handleIntegrateIconsHTML site_with_head parsed) !! "/srv/site/index.html"
    = Some (File ("<html><head>\n  " +:+ IconGenerator.tags_before_color +:+ "#fff\n  b"
                    +:+ IconGenerator.tags_after_color +:+ "\n<title>t</title></head></html>")).
Proof.
  cbv zeta. split; [vm_compute; reflexivity|]. split.
  - vm_compute. discriminate.
  - vm_compute. reflexivity.
Qed.

(** ** Global replacement *)

Section ReplaceFacts.
Import Js JsText.

Lemma getSubstitution_literal (matched before after repl : string) :
  has_char dollar repl = false ->
  getSubstitution matched before after repl = repl.
Proof.
  induction repl as [|a r IH]; simpl; [reflexivity|].
  intros Hr. apply orb_false_iff in Hr as [Ha Hr].
  rewrite Ha, (IH Hr). reflexivity.
Qed.

Variable matchAt : string -> option nat.
Variable repl : string.

Lemma replace_scan_literal (before : string) (skip : nat) (s : string) :
  has_char dollar repl = false ->
  replace_scan matchAt repl before skip s = replace_literal matchAt repl skip s.
Proof.
  intros Hr. revert before skip.
  induction s as [|a r IH]; intros before skip; simpl; [reflexivity|].
  destruct skip as [|k]; [|apply IH].
  destruct (matchAt (String a r)) as [[|n]|]; rewrite IH; try reflexivity.
  rewrite (getSubstitution_literal _ _ _ _ Hr). reflexivity.
Qed.

Lemma replace_literal_skip (k : nat) (s : string) :
  replace_literal matchAt repl k s = replace_literal matchAt repl 0 (drop k s).
Proof.
  revert k. induction s as [|a r IH]; intros [|k]; try reflexivity.
  simpl drop. cbn [replace_literal]. apply IH.
Qed.

Lemma replace_literal_match (a : ascii) (r : string) (n : nat) :
  matchAt (String a r) = Some (S n) ->
  replace_literal matchAt repl 0 (String a r)
    = repl +:+ replace_literal matchAt repl 0 (drop (S n) (String a r)).
Proof.
  intros Hm. cbn [replace_literal drop]. rewrite Hm, replace_literal_skip. reflexivity.
Qed.

Lemma replace_literal_keep (a : ascii) (r : string) :
  matchAt (String a r) = None ->
  replace_literal matchAt repl 0 (String a r) = String a (replace_literal matchAt repl 0 r).
Proof. intros Hm. cbn [replace_literal]. rewrite Hm. reflexivity. Qed.

(** A stretch in which no match starts is copied. *)
Lemma replace_literal_prefix (p rest : string) :
  (forall k, k < String.length p -> matchAt (drop k p +:+ rest) = None) ->
  replace_literal matchAt repl 0 (p +:+ rest) = p +:+ replace_literal matchAt repl 0 rest.
Proof.
  induction p as [|a p IH]; intros Hnone; [reflexivity|].
  cbn [String.append]. rewrite replace_literal_keep.
  - rewrite IH; [reflexivity|]. intros k Hk. apply (Hnone (S k)). simpl. lia.
  - apply (Hnone 0). simpl. lia.
Qed.

Lemma replace_literal_untouched (s : string) :
  (forall k, k < String.length s -> matchAt (drop k s) = None) ->
  replace_literal matchAt repl 0 s = s.
Proof.
  intros Hnone. rewrite <- (append_empty_r s) at 1.
  rewrite replace_literal_prefix; [apply append_empty_r|].
  intros k Hk. rewrite append_empty_r. apply Hnone. exact Hk.
Qed.
End ReplaceFacts.

(** ** Attribute values *)

Section AttributeFacts.
Import Js JsText.

Lemma upto_quote_free (s : string) :
  upto_quote s = None <-> has_char dquote s = false.
Proof.
  induction s as [|a s IH]; simpl; [tauto|].
  destruct (Ascii.eqb a dquote); simpl; [split; discriminate|].
  rewrite <- IH. destruct (upto_quote s); simpl; split; congruence.
Qed.

Lemma upto_quote_append (p rest : string) :
  has_char dquote p = false ->
  upto_quote (p +:+ rest) = option_map (fun k => String.length p + k) (upto_quote rest).
Proof.
  induction p as [|a p IH]; simpl.
  - intros _. destruct (upto_quote rest); reflexivity.
  - intros Hp. apply orb_false_iff in Hp as [Ha Hp].
    rewrite Ha, (IH Hp). destruct (upto_quote rest); reflexivity.
Qed.

Lemma upto_quote_value (v rest : string) :
  has_char dquote v = false ->
  upto_quote (v +:+ dq +:+ rest) = Some (String.length v).
Proof.
  intros Hv. rewrite (upto_quote_append _ _ Hv). simpl. f_equal. lia.
Qed.

Lemma upto_quote_split (s : string) (k : nat) :
  upto_quote s = Some k ->
  has_char dquote (take k s) = false /\ s = take k s +:+ dq +:+ drop (S k) s.
Proof.
  revert k. induction s as [|a s IH]; intros k; simpl; [discriminate|].
  destruct (Ascii.eqb a dquote) eqn:Ha.
  - intros Hk. injection Hk as <-. apply Ascii.eqb_eq in Ha. subst a.
    split; reflexivity.
  - destruct (upto_quote s) as [j|]; [|discriminate].
    simpl. intros Hk. injection Hk as <-.
    destruct (IH j eq_refl) as [Hfree Heq].
    cbn [take drop has_char String.append]. rewrite Ha, Hfree.
    split; [reflexivity|]. f_equal. exact Heq.
Qed.

(** The expression matches exactly at an attribute, up to the end of
    its value. *)
Lemma match_attr_value (attr v rest : string) :
  has_char dquote v = false ->
  match_attr attr (attr_open attr +:+ v +:+ dq +:+ rest)
    = Some (String.length (attr_open attr) + String.length v + 1).
Proof.
  intros Hv. unfold match_attr.
  rewrite startsWith_append, drop_append, (upto_quote_value _ _ Hv). reflexivity.
Qed.

Lemma match_attr_inv (attr s : string) (n : nat) :
  match_attr attr s = Some n ->
  exists v rest,
    has_char dquote v = false /\
    s = attr_open attr +:+ v +:+ dq +:+ rest /\
    n = String.length (attr_open attr) + String.length v + 1.
Proof.
  unfold match_attr. destruct (startsWith s (attr_open attr)) eqn:Hs; [|discriminate].
  apply startsWith_inv in Hs as [t ->]. rewrite drop_append.
  destruct (upto_quote t) as [k|] eqn:Hk; [|discriminate].
  simpl. intros Hn. injection Hn as <-.
  destruct (upto_quote_split _ _ Hk) as [Hfree Heq].
  exists (take k t), (drop (S k) t). split; [exact Hfree|]. split.
  - f_equal. exact Heq.
  - assert (Hlen : String.length (take k t) = k).
    { apply (f_equal upto_quote) in Heq.
      rewrite Hk, (upto_quote_value _ _ Hfree) in Heq. congruence. }
    rewrite Hlen. reflexivity.
Qed.

Lemma match_attr_none (attr s : string) :
  match_attr attr s = None ->
  ~ exists v rest, s = attr_open attr +:+ v +:+ dq +:+ rest.
Proof.
  intros Hnone (v & rest & ->). unfold match_attr in Hnone.
  rewrite startsWith_append, drop_append in Hnone.
  destruct (upto_quote (v +:+ dq +:+ rest)) eqn:Hq; [discriminate|].
  apply upto_quote_free in Hq. rewrite !has_char_append in Hq. simpl in Hq.
  rewrite orb_true_r in Hq. discriminate.
Qed.
End AttributeFacts.

(** ** Recolouring an attribute *)

Section Recolor.
Import Js JsText.

Lemma drop_value (open v rest : string) :
  drop (S (String.length open + String.length v)) (open +:+ v +:+ dq +:+ rest) = rest.
Proof.
  rewrite <- (append_assoc v dq rest), <- (append_assoc open (v +:+ dq) rest).
  replace (S (String.length open + String.length v))
    with (String.length (open +:+ v +:+ dq)).
  - apply drop_append.
  - rewrite !length_append. simpl. lia.
Qed.

Lemma replace_literal_recolored (attr c s : string) :
  Recolored attr c s
    (replace_literal (match_attr attr) (attr_open attr +:+ c +:+ dq) 0 s).
Proof.
  remember (String.length s) as n eqn:Hn. revert s Hn.
  induction n as [n IH] using lt_wf_ind. intros s Hn.
  destruct s as [|a r]; [constructor|].
  destruct (match_attr attr (String a r)) as [m|] eqn:Hm.
  - destruct (match_attr_inv _ _ _ Hm) as (v & rest & Hv & Heq & Hlen).
    assert (Hm' : match_attr attr (String a r)
                  = Some (S (String.length (attr_open attr) + String.length v)))
      by (rewrite Hm; f_equal; lia).
    rewrite (replace_literal_match _ _ _ _ _ Hm'), Heq, drop_value, !append_assoc.
    apply Recolored_attr; [exact Hv|].
    apply (IH (String.length rest)); [|reflexivity].
    subst n. rewrite Heq, !length_append. simpl. lia.
  - rewrite (replace_literal_keep _ _ _ _ Hm).
    apply Recolored_char; [apply match_attr_none; exact Hm|].
    apply (IH (String.length r)); [|reflexivity]. subst n. simpl. lia.
Qed.

Lemma attr_open_not_empty (attr x : string) : attr_open attr +:+ x <> EmptyString.
Proof. unfold attr_open. destruct attr; simpl; discriminate. Qed.

(** The relation determines the result. *)
Lemma Recolored_functional (attr c s out1 out2 : string) :
  Recolored attr c s out1 -> Recolored attr c s out2 -> out1 = out2.
Proof.
  intros H1. revert out2.
  induction H1 as [|v rest rest' Hv H1 IH|a s s' Hno H1 IH]; intros out2 H2.
  - remember EmptyString as src eqn:Hsrc.
    destruct H2 as [|v2 r2 r2' Hv2 H2|a2 s2 s2' Hno2 H2].
    + reflexivity.
    + exfalso. exact (attr_open_not_empty _ _ Hsrc).
    + discriminate.
  - remember (attr_open attr +:+ v +:+ dq +:+ rest) as src eqn:Hsrc.
    destruct H2 as [|v2 r2 r2' Hv2 H2|a2 s2 s2' Hno2 H2].
    + exfalso. symmetry in Hsrc. exact (attr_open_not_empty _ _ Hsrc).
    + assert (Hq : upto_quote (v2 +:+ dq +:+ r2) = upto_quote (v +:+ dq +:+ rest)).
      { apply (f_equal (drop (String.length (attr_open attr)))) in Hsrc.
        rewrite !drop_append in Hsrc. rewrite Hsrc. reflexivity. }
      rewrite !upto_quote_value in Hq by assumption. injection Hq as Hlen.
      assert (Hrest : r2 = rest).
      { apply (f_equal (drop (S (String.length (attr_open attr) + String.length v2))))
          in Hsrc.
        rewrite drop_value in Hsrc. rewrite Hlen, drop_value in Hsrc. exact Hsrc. }
      subst r2. rewrite (IH _ H2). reflexivity.
    + exfalso. apply Hno2. exists v, rest. exact Hsrc.
  - remember (String a s) as src eqn:Hsrc.
    destruct H2 as [|v2 r2 r2' Hv2 H2|a2 s2 s2' Hno2 H2].
    + discriminate.
    + exfalso. apply Hno. exists v2, r2. reflexivity.
    + injection Hsrc as -> ->. rewrite (IH _ H2). reflexivity.
Qed.
End Recolor.

(** ** The two attributes of the pinned-tab text *)

Section Matching.
Import Js JsText.

Lemma has_char_drop (c : ascii) (k : nat) (s : string) :
  has_char c s = false -> has_char c (drop k s) = false.
Proof.
  revert s. induction k as [|k IH]; intros [|a s]; simpl; try tauto.
  intros Hs. apply orb_false_iff in Hs as [_ Hs]. apply IH. exact Hs.
Qed.

Lemma length_drop (k : nat) (s : string) :
  String.length (drop k s) = String.length s - k.
Proof. revert s. induction k as [|k IH]; intros [|a s]; simpl; auto. Qed.

Lemma match_attr_quote_free (attr s : string) :
  has_char dquote s = false -> match_attr attr s = None.
Proof.
  intros Hs. destruct (match_attr attr s) as [n|] eqn:Hm; [|reflexivity].
  apply match_attr_inv in Hm as (v & rest & _ & -> & _).
  rewrite !has_char_append in Hs. simpl in Hs.
  rewrite !orb_true_r in Hs. discriminate.
Qed.

(** A match starts with the attribute name and the equals sign, and
    its quote is the first quote of the text. *)
Lemma match_attr_first_quote (attr s : string) (n : nat) :
  has_char dquote attr = false ->
  match_attr attr s = Some n ->
  startsWith s (attr +:+ "=") = true /\ upto_quote s = Some (String.length attr + 1).
Proof.
  intros Hattr Hm. apply match_attr_inv in Hm as (v & rest & _ & -> & _).
  unfold attr_open. rewrite <- (append_assoc attr "=" dq), !append_assoc. split.
  - rewrite <- append_assoc. apply startsWith_append.
  - rewrite <- (append_assoc attr "=").
    rewrite upto_quote_append.
    + simpl. rewrite length_append. simpl. f_equal. lia.
    + rewrite has_char_append, Hattr. reflexivity.
Qed.

(** No match starts in a text without quotes when the first quote
    after it is too far to be the one of the attribute. *)
Lemma no_match_before (attr p rest : string) (j : nat) :
  has_char dquote attr = false ->
  has_char dquote p = false ->
  upto_quote rest = Some j ->
  String.length attr + 1 <= j ->
  forall k, k < String.length p -> match_attr attr (drop k p +:+ rest) = None.
Proof.
  intros Hattr Hp Hrest Hj k Hk.
  destruct (match_attr attr (drop k p +:+ rest)) as [n|] eqn:Hm; [|reflexivity].
  destruct (match_attr_first_quote _ _ _ Hattr Hm) as [_ Hq].
  rewrite (upto_quote_append _ _ (has_char_drop _ k _ Hp)), Hrest in Hq.
  simpl in Hq. injection Hq as Hq. rewrite length_drop in Hq. lia.
Qed.

Lemma startsWith_last_char (name : string) (ch : ascii) (w rest : string) :
  startsWith (w +:+ rest) (name +:+ String ch EmptyString) = true ->
  String.length w = String.length name + 1 ->
  has_char ch w = true.
Proof.
  revert w. induction name as [|x name IH]; intros [|a w] Hs Hlen; simpl in Hlen; try lia.
  - destruct w; [|simpl in Hlen; lia]. simpl in *.
    apply andb_true_iff in Hs as [Hs _]. rewrite Ascii.eqb_sym, Hs. reflexivity.
  - simpl in Hs. apply andb_true_iff in Hs as [_ Hs]. simpl.
    rewrite (IH w Hs) by lia. apply orb_true_r.
Qed.

(** In front of a fill attribute no stroke attribute starts. *)
Lemma no_stroke_before_fill (p rest : string) :
  has_char dquote p = false ->
  forall k, k < String.length p ->
    match_attr "stroke" (drop k p +:+ attr_open "fill" +:+ rest) = None.
Proof.
  intros Hp k Hk.
  destruct (match_attr "stroke" (drop k p +:+ attr_open "fill" +:+ rest)) as [n|] eqn:Hm;
    [|reflexivity].
  destruct (match_attr_first_quote "stroke" _ _ eq_refl Hm) as [Hs Hq].
  rewrite (upto_quote_append _ _ (has_char_drop _ k _ Hp)) in Hq.
  change (upto_quote (attr_open "fill" +:+ rest)) with (Some 5) in Hq.
  simpl in Hq. injection Hq as Hq.
  destruct (drop k p) as [|a [|b [|x w]]]; simpl in Hq; try lia.
  unfold attr_open in Hs. cbn [startsWith String.append] in Hs.
  destruct (Ascii.eqb _ a), (Ascii.eqb _ b); vm_compute in Hs; discriminate.
Qed.

(** Inside a colour without quote and equals sign no stroke attribute
    starts either. *)
Lemma no_stroke_in_color (c rest : string) :
  has_char dquote c = false ->
  has_char "="%char c = false ->
  forall k, k < String.length c ->
    match_attr "stroke" (drop k c +:+ dq +:+ rest) = None.
Proof.
  intros Hq He k Hk.
  destruct (match_attr "stroke" (drop k c +:+ dq +:+ rest)) as [n|] eqn:Hm; [|reflexivity].
  destruct (match_attr_first_quote "stroke" _ _ eq_refl Hm) as [Hs Hfirst].
  rewrite (upto_quote_value _ _ (has_char_drop _ k _ Hq)) in Hfirst.
  injection Hfirst as Hlen.
  pose proof (startsWith_last_char "stroke" "="%char _ _ Hs Hlen) as Hhas.
  rewrite (has_char_drop _ k _ He) in Hhas. discriminate.
Qed.

Lemma replace_literal_attr (attr repl v rest : string) :
  has_char dquote v = false ->
  replace_literal (match_attr attr) repl 0 (attr_open attr +:+ v +:+ dq +:+ rest)
    = repl +:+ replace_literal (match_attr attr) repl 0 rest.
Proof.
  intros Hv.
  pose proof (match_attr_value attr v rest Hv) as Hm.
  pose proof (drop_value (attr_open attr) v rest) as Hdrop.
  destruct (attr_open attr +:+ v +:+ dq +:+ rest) as [|a r] eqn:Heq.
  - exfalso. exact (attr_open_not_empty _ _ Heq).
  - rewrite Nat.add_1_r in Hm.
    rewrite (replace_literal_match _ _ _ _ _ Hm), Hdrop. reflexivity.
Qed.

Lemma replace_literal_quote_free (attr repl s : string) :
  has_char dquote s = false ->
  replace_literal (match_attr attr) repl 0 s = s.
Proof.
  intros Hs. apply replace_literal_untouched. intros k _.
  apply match_attr_quote_free, has_char_drop, Hs.
Qed.
End Matching.

Section PinnedTab.
Import Js JsText.

Lemma fill_pass (c pre mid post : string) :
  has_char dquote pre = false ->
  has_char dquote mid = false ->
  has_char dquote post = false ->
  replace_literal (match_attr "fill") (attr_open "fill" +:+ c +:+ dq) 0
    (two_attributes pre "#112233" mid "#445566" post)
  = two_attributes pre c mid "#445566" post.
Proof.
  intros Hpre Hmid Hpost. unfold two_attributes.
  rewrite replace_literal_prefix
    by (apply (no_match_before "fill" pre _ 5); [reflexivity | exact Hpre | reflexivity | simpl; lia]).
  rewrite replace_literal_attr by reflexivity.
  rewrite replace_literal_prefix
    by (apply (no_match_before "fill" mid _ 7); [reflexivity | exact Hmid | reflexivity | simpl; lia]).
  change (attr_open "stroke" +:+ "#445566" +:+ dq +:+ post)
    with ((attr_open "stroke" +:+ "#445566" +:+ dq) +:+ post).
  rewrite replace_literal_prefix.
  - rewrite (replace_literal_quote_free _ _ _ Hpost), !append_assoc. reflexivity.
  - intros k Hk. do 16 (destruct k as [|k]; [reflexivity|]). simpl in Hk. lia.
Qed.

Lemma stroke_skips_quote (repl rest : string) :
  replace_literal (match_attr "stroke") repl 0 (dq +:+ rest)
  = dq +:+ replace_literal (match_attr "stroke") repl 0 rest.
Proof. apply (replace_literal_keep _ _ dquote rest). reflexivity. Qed.

Lemma stroke_pass (c pre mid post : string) :
  has_char dquote c = false ->
  has_char "="%char c = false ->
  has_char dquote pre = false ->
  has_char dquote mid = false ->
  has_char dquote post = false ->
  replace_literal (match_attr "stroke") (attr_open "stroke" +:+ c +:+ dq) 0
    (two_attributes pre c mid "#445566" post)
  = two_attributes pre c mid c post.
Proof.
  intros Hq He Hpre Hmid Hpost. unfold two_attributes.
  rewrite replace_literal_prefix by (apply no_stroke_before_fill; exact Hpre).
  change (attr_open "fill" +:+ c +:+ dq +:+ mid +:+ attr_open "stroke"
            +:+ "#445566" +:+ dq +:+ post)
    with (attr_open "fill" +:+ (c +:+ dq +:+ mid +:+ attr_open "stroke"
            +:+ "#445566" +:+ dq +:+ post)).
  rewrite (replace_literal_prefix _ _ (attr_open "fill"))
    by (intros k Hk; do 6 (destruct k as [|k]; [reflexivity|]); simpl in Hk; lia).
  rewrite replace_literal_prefix by (apply no_stroke_in_color; assumption).
  rewrite stroke_skips_quote.
  rewrite replace_literal_prefix
    by (apply (no_match_before "stroke" mid _ 7);
        [reflexivity | exact Hmid | reflexivity | simpl; lia]).
  rewrite replace_literal_attr by reflexivity.
  rewrite (replace_literal_quote_free _ _ _ Hpost), !append_assoc. reflexivity.
Qed.

Lemma replacement_without_dollar (name c : string) :
  has_char dollar name = false ->
  has_char dollar c = false ->
  has_char dollar (name +:+ dq +:+ c +:+ dq) = false.
Proof. intros Hn Hc. rewrite !has_char_append, Hn, Hc. reflexivity. Qed.

Lemma monochromeSVG_literal (color : option string) (sourceSVG : string) :
  has_char dollar (or_else color "#000000") = false ->
  IconGenerator.monochromeSVG color sourceSVG =
  replace_literal (match_attr "stroke")
    (attr_open "stroke" +:+ or_else color "#000000" +:+ dq) 0
    (replace_literal (match_attr "fill")
       (attr_open "fill" +:+ or_else color "#000000" +:+ dq) 0 sourceSVG).
Proof.
  intros Hc. unfold IconGenerator.monochromeSVG, replaceAll.
  rewrite !replace_scan_literal
    by (apply replacement_without_dollar; [reflexivity | exact Hc]).
  reflexivity.
Qed.

(** *** Where a text can occur in a concatenation *)

Lemma includes_empty (s : string) : includes s EmptyString = true.
Proof. destruct s; reflexivity. Qed.

Lemma startsWith_includes (s x : string) :
  startsWith s x = true -> includes s x = true.
Proof. intros Hs. destruct s; simpl; rewrite Hs; reflexivity. Qed.

Lemma startsWith_refl (s : string) : startsWith s s = true.
Proof. induction s as [|a s IH]; simpl; [|rewrite Ascii.eqb_refl]; auto. Qed.

Lemma startsWith_append_cases (a t x : string) :
  startsWith (a +:+ t) x = true ->
  startsWith a x = true \/ exists x2, x = a +:+ x2 /\ startsWith t x2 = true.
Proof.
  revert x. induction a as [|y a IH]; intros x Hs.
  - right. exists x. split; [reflexivity | exact Hs].
  - destruct x as [|x0 x]; [left; reflexivity|].
    simpl in Hs. apply andb_true_iff in Hs as [Hxy Hs].
    destruct (IH x Hs) as [Ha | (x2 & -> & Ht)].
    + left. simpl. rewrite Hxy, Ha. reflexivity.
    + right. exists x2. apply Ascii.eqb_eq in Hxy. subst. split; [reflexivity | exact Ht].
Qed.

Lemma includes_after_separator (sep b x : string) :
  none_in sep x = true -> includes (sep +:+ b) x = true -> includes b x = true.
Proof.
  destruct x as [|x0 x]; [intros; apply includes_empty|].
  induction sep as [|ch sep IH]; intros Hsep Hin; [exact Hin|].
  simpl in Hsep. apply andb_true_iff in Hsep as [Hch Hsep].
  apply negb_true_iff, orb_false_iff in Hch as [Hch _].
  cbn [String.append includes startsWith] in Hin.
  rewrite Hch in Hin. apply (IH Hsep). exact Hin.
Qed.

Lemma includes_across_separator (a sep b x : string) :
  none_in sep x = true ->
  sep <> EmptyString ->
  includes a x = false ->
  includes b x = false ->
  includes (a +:+ sep +:+ b) x = false.
Proof.
  intros Hsep Hne Ha Hb.
  destruct (includes (a +:+ sep +:+ b) x) eqn:Hin; [exfalso|reflexivity].
  induction a as [|y a IH].
  - rewrite (includes_after_separator _ _ _ Hsep Hin) in Hb. discriminate.
  - apply includes_false_inv in Ha as [Hstart Ha].
    cbn [String.append includes] in Hin. apply orb_true_iff in Hin as [Hin | Hin].
    + apply (startsWith_append_cases (String y a)) in Hin as [Hin | (x2 & -> & Hin)].
      * congruence.
      * destruct x2 as [|z x2].
        { rewrite append_empty_r, startsWith_refl in Hstart. discriminate. }
        destruct sep as [|ch sep]; [congruence|].
        simpl in Hin. apply andb_true_iff in Hin as [Hz _].
        apply Ascii.eqb_eq in Hz. subst z.
        simpl in Hsep. apply andb_true_iff in Hsep as [Hch _].
        apply negb_true_iff in Hch.
        change (String y a +:+ String ch x2) with (String y (a +:+ String ch x2)) in Hch.
        simpl in Hch. rewrite has_char_append in Hch. simpl in Hch.
        rewrite Ascii.eqb_refl in Hch. simpl in Hch.
        rewrite !orb_true_r in Hch. discriminate.
    + exact (IH Ha Hin).
Qed.
End PinnedTab.

Section PinnedTabTheorem.
Import Js JsText.

(** C7, amended: for a colour without a dollar sign (the empty or
    missing colour standing for #000000) the pinned-tab text is the
    source with every fill attribute recoloured, and then every stroke
    attribute of that text recoloured.  For a source made of quote-free
    text around a fill attribute of value #112233 and a stroke
    attribute of value #445566, and a colour without quote and equals
    sign, the result is the same text with the colour in both
    attributes; an original colour is found in it only if the
    surrounding text or the colour contains it. *)
Theorem pinned_tab_recolors_attributes (color : option string) (sourceSVG : string) :
  let c := or_else color "#000000" in
  has_char dollar c = false ->
  (exists filled,
     Recolored "fill" c sourceSVG filled /\
     Recolored "stroke" c filled (IconGenerator.monochromeSVG color sourceSVG)) /\
  (forall pre mid post,
     sourceSVG = two_attributes pre "#112233" mid "#445566" post ->
     has_char dquote pre = false ->
     has_char dquote mid = false ->
     has_char dquote post = false ->
     has_char dquote c = false ->
     has_char "="%char c = false ->
     IconGenerator.monochromeSVG color sourceSVG = two_attributes pre c mid c post /\
     forall old,
       old = "#112233" \/ old = "#445566" ->
       includes pre old = false ->
       includes mid old = false ->
       includes post old = false ->
       includes c old = false ->
       includes (IconGenerator.monochromeSVG color sourceSVG) old = false).
Proof.
  cbv zeta. intros Hdollar. rewrite (monochromeSVG_literal _ _ Hdollar). split.
  - eexists. split; apply replace_literal_recolored.
  - intros pre mid post -> Hpre Hmid Hpost Hq He.
    rewrite (fill_pass _ _ _ _ Hpre Hmid Hpost).
    rewrite (stroke_pass _ _ _ _ Hq He Hpre Hmid Hpost).
    split; [reflexivity|].
    intros old Hold Hipre Himid Hipost Hic. unfold two_attributes.
    apply includes_across_separator;
      [destruct Hold as [-> | ->]; reflexivity | discriminate | exact Hipre |].
    apply includes_across_separator;
      [destruct Hold as [-> | ->]; reflexivity | discriminate | exact Hic |].
    apply includes_across_separator;
      [destruct Hold as [-> | ->]; reflexivity | discriminate | exact Himid |].
    apply includes_across_separator;
      [destruct Hold as [-> | ->]; reflexivity | discriminate | exact Hic | exact Hipost].
Qed.
End PinnedTabTheorem.

Lemma pinned_tab_recolors_attributes_witness :
  IconGenerator.monochromeSVG (Some "#5bbad5")
    (JsText.q "<svg><path fill=`#112233` stroke=`#445566`/></svg>")
  = JsText.q "<svg><path fill=`#5bbad5` stroke=`#5bbad5`/></svg>" /\
  Js.includes
    (IconGenerator.monochromeSVG (Some "#5bbad5")
       (JsText.q "<svg><path fill=`#112233` stroke=`#445566`/></svg>")) "#112233" = false /\
  Js.includes
    (IconGenerator.monochromeSVG (Some "#5bbad5")
       (JsText.q "<svg><path fill=`#112233` stroke=`#445566`/></svg>")) "#445566" = false.
Proof.
  destruct (proj2 (pinned_tab_recolors_attributes (Some "#5bbad5")
                     (JsText.q "<svg><path fill=`#112233` stroke=`#445566`/></svg>")
                     eq_refl)
              "<svg><path " " " "/></svg>" eq_refl eq_refl eq_refl eq_refl eq_refl eq_refl)
    as [Hout Hold].
  split; [rewrite Hout; reflexivity|].
  split; apply Hold; auto.
Defined.

(** C7 as stated fails: an original colour that also stands outside the
    two attributes (here in a style attribute) is still in the
    pinned-tab text. *)
Lemma pinned_tab_keeps_color_outside_attributes :
  let sourceSVG :=
    JsText.q "<svg><path fill=`#112233` stroke=`#445566` style=`color:#112233`/></svg>" in
  let out := IconGenerator.monochromeSVG (Some "#5bbad5") sourceSVG in
  Js.includes sourceSVG (JsText.q "fill=`#112233`") = true /\
  Js.includes sourceSVG (JsText.q "stroke=`#445566`") = true /\
  out = JsText.q "<svg><path fill=`#5bbad5` stroke=`#5bbad5` style=`color:#112233`/></svg>" /\
  Js.includes out "#112233" = true.
Proof. cbv zeta. repeat split; vm_compute; reflexivity. Qed.

(** A dollar sign in the colour is read as a substitution pattern: the
    matched attribute comes back in place of the colour. *)
Example pinned_tab_dollar_ampersand :
  IconGenerator.monochromeSVG (Some "$&") (JsText.q "<path fill=`#112233`/>")
  = JsText.q "<path fill=`fill=`#112233``/>".
Proof. vm_compute. reflexivity. Qed.

Example pinned_tab_default_black :
  IconGenerator.monochromeSVG None (JsText.q "<path stroke=`red` fill=`none`/>")
  = JsText.q "<path stroke=`#000000` fill=`#000000`/>".
Proof. vm_compute. reflexivity. Qed.


(** * Further properties *)

(** ** The mode chosen by the callers of the generator *)

Section CallerModes.
Context `{NodePath}.

(** X1: resolving the mode from the output directory before the
    generator is built changes nothing: the generator built with the
    mode the command line has resolved runs in the same mode as one
    built with the requested mode on the same directory. *)
Theorem modeWithOutput_agrees_with_generator
    (sourcePath outputDir : string) (color projectRoot : option string)
    (mode : GenerationMode) :
  let opts m :=
    {| GeneratorOptions.sourcePath := sourcePath;
       GeneratorOptions.outputDir := outputDir;
       GeneratorOptions.color := color;
       GeneratorOptions.mode := Some m;
       GeneratorOptions.projectRoot := projectRoot |} in
  IconGenerator.getMode (IconGenerator.new (opts (Cli.modeWithOutput mode outputDir)))
  = IconGenerator.getMode (IconGenerator.new (opts mode)) /\
  Cli.modeWithOutput mode outputDir <> auto /\
  Cli.modeWithOutput (Cli.modeWithOutput mode outputDir) outputDir
  = Cli.modeWithOutput mode outputDir.
Proof.
  cbv zeta. unfold IconGenerator.getMode, IconGenerator.new, Cli.modeWithOutput.
  cbn [IconGenerator.mode IconGenerator.resolveMode GeneratorOptions.mode
       GeneratorOptions.outputDir default].
  destruct mode; try (repeat split; discriminate || reflexivity).
  destruct (String.eqb (path_basename outputDir) "app" || Js.includes outputDir "/app");
    repeat split; discriminate || reflexivity.
Qed.
End CallerModes.

(** ** The app-router directory *)

Section AppRouter.
Context `{NodePath}.
Variable fs : gmap string node.
Import FrameworkDetector.

Lemma detect_in_catalog (this : FrameworkDetector.t) (framework : Framework.t) :
  detect fs this = Some framework ->
  In framework FRAMEWORKS /\ has_config fs this framework = true.
Proof.
  unfold detect. rewrite detect_frameworks_find.
  intros Hfind. exact (find_some _ _ Hfind).
Qed.

Lemma detect_next_iff (this : FrameworkDetector.t) :
  Framework.name <$> detect fs this = Some "Next.js" <->
  existsb (fun f => access fs (path_join (cwd this) f))
          ["next.config.js"; "next.config.mjs"; "next.config.ts"] = true.
Proof.
  unfold detect. rewrite detect_frameworks_find. unfold FRAMEWORKS. cbn [List.find].
  unfold has_config at 1. cbn [Framework.configFiles].
  destruct (existsb _ ["next.config.js"; "next.config.mjs"; "next.config.ts"]).
  - split; reflexivity.
  - split; [|discriminate].
    repeat match goal with
           | |- context [has_config ?a ?b ?c] => destruct (has_config a b c)
           end; discriminate.
Qed.

Lemma getAppDir_cases (this : FrameworkDetector.t) :
  getAppDir fs this
  = (if existsb (fun f => access fs (path_join (cwd this) f))
                ["next.config.js"; "next.config.mjs"; "next.config.ts"]
     then if access fs (path_join (cwd this) "app") then Some (path_join (cwd this) "app")
          else if access fs (path_join (path_join (cwd this) "src") "app")
               then Some (path_join (path_join (cwd this) "src") "app") else None
     else None).
Proof.
  unfold getAppDir, detect. rewrite detect_frameworks_find.
  unfold FRAMEWORKS. cbn [List.find]. unfold has_config at 1.
  cbn [Framework.configFiles].
  destruct (existsb _ ["next.config.js"; "next.config.mjs"; "next.config.ts"]);
    [reflexivity|].
  repeat match goal with
         | |- context [has_config ?a ?b ?c] => destruct (has_config a b c)
         end; reflexivity.
Qed.

Lemma getAppDir_exists (this : FrameworkDetector.t) (appDir : string) :
  getAppDir fs this = Some appDir ->
  access fs appDir = true /\ Framework.name <$> detect fs this = Some "Next.js".
Proof.
  intros Happ. rewrite getAppDir_cases in Happ.
  destruct (existsb _ _) eqn:Hnext; [|discriminate].
  split; [|apply detect_next_iff; exact Hnext].
  destruct (access fs (path_join (cwd this) "app")) eqn:Hroot.
  - injection Happ as <-. exact Hroot.
  - destruct (access fs (path_join (path_join (cwd this) "src") "app")) eqn:Hsrc;
      [|discriminate].
    injection Happ as <-. exact Hsrc.
Qed.

(** X2: an app-router directory is reported exactly when a Next.js
    configuration file exists and [app] exists under the root or under
    [src]; the root one wins; the directory returned exists, and the
    detected framework is then Next.js. *)
Theorem app_router_needs_next_and_directory (this : FrameworkDetector.t) :
  let next_config :=
    existsb (fun f => access fs (path_join (cwd this) f))
            ["next.config.js"; "next.config.mjs"; "next.config.ts"] in
  let rootAppDir := path_join (cwd this) "app" in
  let srcAppDir := path_join (path_join (cwd this) "src") "app" in
  getAppDir fs this
  = (if next_config then
       if access fs rootAppDir then Some rootAppDir
       else if access fs srcAppDir then Some srcAppDir else None
     else None) /\
  hasAppRouter fs this = next_config && (access fs rootAppDir || access fs srcAppDir) /\
  (forall appDir, getAppDir fs this = Some appDir ->
     access fs appDir = true /\
     Framework.name <$> detect fs this = Some "Next.js").
Proof.
  cbv zeta. split; [apply getAppDir_cases|]. split.
  - unfold hasAppRouter. rewrite getAppDir_cases.
    destruct (existsb _ _), (access fs (path_join (cwd this) "app")),
      (access fs (path_join (path_join (cwd this) "src") "app")); reflexivity.
  - apply getAppDir_exists.
Qed.
End AppRouter.

(** ** The generating tools *)

Section GeneratingTools.
Context `{NodePath}.
Variable fs : gmap string node.
Import FrameworkDetector McpTools.

Lemma hasAppRouter_is_next (detector : FrameworkDetector.t) :
  hasAppRouter fs detector = true -> isNextJs (detect fs detector) = true.
Proof.
  unfold hasAppRouter. destruct (getAppDir fs detector) as [appDir|] eqn:Happ; [|discriminate].
  intros _. destruct (getAppDir_exists fs _ _ Happ) as [_ Hname].
  unfold isNextJs. destruct (detect fs detector) as [f|]; [|discriminate].
  simpl in Hname. injection Hname as ->. reflexivity.
Qed.

(** The test of the framework name adds nothing to the test of the
    app router. *)
Lemma modeWithoutOutput_cases (detector : FrameworkDetector.t) (mode : GenerationMode) :
  modeWithoutOutput fs detector mode =
  match mode with
  | auto => if hasAppRouter fs detector then nextjs else traditional
  | _ => mode
  end.
Proof.
  unfold modeWithoutOutput. destruct mode; try reflexivity.
  pose proof (hasAppRouter_is_next detector) as Hnext.
  destruct (hasAppRouter fs detector); [rewrite (Hnext eq_refl)|]; reflexivity.
Qed.

(** X3: without an output directory the tools never leave the mode at
    auto; an auto request becomes nextjs exactly when an app-router
    directory exists, and an explicit request is kept.  The output
    directory is the existing app-router directory in nextjs mode with
    an app router, and the static directory in every other case, also
    for an explicit nextjs request in a project without app router. *)
Theorem tools_without_output_follow_app_router
    (detector : FrameworkDetector.t) (mode : GenerationMode) :
  let chosen := modeWithoutOutput fs detector mode in
  let dir := outputDirWithoutOutput fs detector chosen in
  chosen <> auto /\
  (mode = auto -> (chosen = nextjs <-> hasAppRouter fs detector = true)) /\
  (mode <> auto -> chosen = mode) /\
  (chosen = traditional \/ hasAppRouter fs detector = false ->
   dir = getPublicDir fs detector) /\
  (chosen = nextjs ->
   forall appDir, getAppDir fs detector = Some appDir -> appDir <> EmptyString ->
   dir = appDir /\ access fs dir = true).
Proof.
  cbv zeta. rewrite modeWithoutOutput_cases. unfold outputDirWithoutOutput.
  assert (Hdir : forall appDir, getAppDir fs detector = Some appDir ->
            appDir <> EmptyString ->
            Js.or_else (getAppDir fs detector) (getPublicDir fs detector) = appDir /\
            access fs appDir = true /\ hasAppRouter fs detector = true).
  { intros appDir Happ Hne. unfold hasAppRouter. rewrite Happ.
    destruct appDir as [|a r]; [congruence|]. split; [reflexivity|].
    split; [apply (getAppDir_exists fs _ _ Happ) | reflexivity]. }
  destruct (hasAppRouter fs detector) eqn:Hrouter; destruct mode;
    refine (conj _ (conj _ (conj _ (conj _ _))));
    try discriminate; try congruence;
    try (intros; split; congruence);
    try (intros [?|?]; congruence).
  all: intros Hc appDir Happ Hne.
  all: destruct (Hdir appDir Happ Hne) as (Heq & Hacc & Hr); try congruence.
  all: rewrite Heq; split; [reflexivity | exact Hacc].
Qed.

Lemma findAppIcon_exists (cwd appIcon : string) :
  findAppIcon fs cwd = Some appIcon -> access fs appIcon = true.
Proof.
  unfold findAppIcon. simpl.
  destruct (access fs (path_join cwd "app-icon.svg")) eqn:Hsvg;
    [intros Heq; injection Heq as <-; exact Hsvg|].
  destruct (access fs (path_join cwd "app-icon.png")) eqn:Hpng;
    [intros Heq; injection Heq as <-; exact Hpng | discriminate].
Qed.

(** X4: auto_generate_icons fails with the no-app-icon error exactly
    when no source icon is found; otherwise the generator it builds
    reads the icon found, which exists, is given a concrete mode, and
    for an auto request runs in app-router mode exactly when the project
    has an app-router directory. *)
Theorem auto_generate_uses_the_icon_found (parsed : AutoGenerateIconsSchema.t) :
  let projectPath := AutoGenerateIconsSchema.projectPath parsed in
  let detector := {| FrameworkDetector.cwd := projectPath |} in
  (handleAutoGenerateIcons_generator fs parsed = Throw no_app_icon_error <->
   truthy (findAppIcon fs projectPath) = false) /\
  (forall g, handleAutoGenerateIcons_generator fs parsed = Ok g ->
     findAppIcon fs projectPath = Some (GeneratorOptions.sourcePath (IconGenerator.options g)) /\
     access fs (GeneratorOptions.sourcePath (IconGenerator.options g)) = true /\
     GeneratorOptions.mode (IconGenerator.options g) <> Some auto /\
     GeneratorOptions.mode (IconGenerator.options g) <> None /\
     GeneratorOptions.outputDir (IconGenerator.options g)
       = outputDirWithoutOutput fs detector
           (modeWithoutOutput fs detector (AutoGenerateIconsSchema.mode parsed)) /\
     (AutoGenerateIconsSchema.mode parsed = auto ->
      (IconGenerator.getMode g = NextJs <-> hasAppRouter fs detector = true))).
Proof.
  cbv zeta. unfold handleAutoGenerateIcons_generator.
  destruct (findAppIcon fs (AutoGenerateIconsSchema.projectPath parsed))
    as [[|a r]|] eqn:Hicon; cbn [truthy].
  - split; [tauto | discriminate].
  - split; [split; discriminate|].
    intros g Hg. injection Hg as <-.
    unfold IconGenerator.getMode, IconGenerator.new.
    cbn [IconGenerator.options IconGenerator.mode GeneratorOptions.sourcePath
         GeneratorOptions.mode GeneratorOptions.outputDir default
         IconGenerator.resolveMode].
    rewrite modeWithoutOutput_cases.
    split; [reflexivity|]. split; [exact (findAppIcon_exists _ _ Hicon)|].
    destruct (AutoGenerateIconsSchema.mode parsed);
      [| |destruct (hasAppRouter fs _)];
      repeat split; try discriminate; try reflexivity; intros; discriminate.
  - split; [tauto | discriminate].
Qed.
(** X5: generate_web_icons validates the resolved source before
    anything else and fails with the validator's error; the generator it
    builds reads that source with the colour of the request and a
    concrete mode.  With an output directory it is the generator the
    command line builds for the same request; without one the mode and
    the directory are the ones chosen from the project. *)
Theorem generate_web_icons_validates_first (cwd : string)
    (parsed : GenerateWebIconsSchema.t) :
  let projectPath := Js.or_else (GenerateWebIconsSchema.projectPath parsed) cwd in
  let sourcePath := path_resolve projectPath (GenerateWebIconsSchema.sourcePath parsed) in
  let detector := {| FrameworkDetector.cwd := projectPath |} in
  (forall message,
     handleGenerateWebIcons_generator fs cwd parsed = Throw message <->
     validateSourceFile fs sourcePath = Throw message) /\
  (forall g, handleGenerateWebIcons_generator fs cwd parsed = Ok g ->
     validateSourceFile fs sourcePath = Ok tt /\
     GeneratorOptions.sourcePath (IconGenerator.options g) = sourcePath /\
     GeneratorOptions.color (IconGenerator.options g)
       = Some (GenerateWebIconsSchema.color parsed) /\
     GeneratorOptions.mode (IconGenerator.options g) <> Some auto /\
     GeneratorOptions.mode (IconGenerator.options g) <> None /\
     (forall given,
        GenerateWebIconsSchema.outputDir parsed = Some given -> given <> EmptyString ->
        g = Cli.generatorWithOutput sourcePath (path_resolve projectPath given)
              (Some (GenerateWebIconsSchema.color parsed))
              (GenerateWebIconsSchema.mode parsed)) /\
     (truthy (GenerateWebIconsSchema.outputDir parsed) = false ->
      GeneratorOptions.mode (IconGenerator.options g)
        = Some (modeWithoutOutput fs detector (GenerateWebIconsSchema.mode parsed)) /\
      GeneratorOptions.outputDir (IconGenerator.options g)
        = outputDirWithoutOutput fs detector
            (modeWithoutOutput fs detector (GenerateWebIconsSchema.mode parsed)))).
Proof.
  cbv zeta. unfold handleGenerateWebIcons_generator. cbv zeta.
  destruct (validateSourceFile fs _) as [[]|message'] eqn:Hvalid.
  - destruct (GenerateWebIconsSchema.outputDir parsed) as [[|a r]|] eqn:Hout;
      cbv beta iota; cbn [truthy];
      (split; [intros message; split; discriminate|]);
      intros g Hg; (split; [reflexivity|]); injection Hg as <-;
      unfold IconGenerator.new;
      cbn [IconGenerator.options GeneratorOptions.sourcePath GeneratorOptions.color
           GeneratorOptions.mode GeneratorOptions.outputDir];
      (split; [reflexivity|]); (split; [reflexivity|]).
    + rewrite modeWithoutOutput_cases.
      destruct (GenerateWebIconsSchema.mode parsed);
        [| |destruct (hasAppRouter fs _)];
        refine (conj _ (conj _ (conj _ _))); try discriminate;
        try (intros given Hgiven; injection Hgiven as <-; congruence);
        intros _; split; reflexivity.
    + assert (Hmode : forall m,
                match m with
                | auto =>
                  if String.eqb (path_basename (path_resolve
                         (Js.or_else (GenerateWebIconsSchema.projectPath parsed) cwd)
                         (String a r))) "app"
                     || Js.includes (path_resolve
                         (Js.or_else (GenerateWebIconsSchema.projectPath parsed) cwd)
                         (String a r)) "/app"
                  then nextjs else traditional
                | _ => m
                end <> auto).
      { intros m. destruct m; try discriminate.
        destruct (_ || _); discriminate. }
      refine (conj _ (conj _ (conj _ _))).
      * intros Heq. injection Heq as Heq. exact (Hmode _ Heq).
      * discriminate.
      * intros given Hgiven _. injection Hgiven as <-. reflexivity.
      * discriminate.
    + rewrite modeWithoutOutput_cases.
      destruct (GenerateWebIconsSchema.mode parsed);
        [| |destruct (hasAppRouter fs _)];
        refine (conj _ (conj _ (conj _ _))); try discriminate;
        intros _; split; reflexivity.
  - split; [|discriminate].
    intros message. split; intros Heq; injection Heq as <-; reflexivity.
Qed.
End GeneratingTools.

(** ** The HTML integrator and the files around it *)

Section IntegratorFrame.
Context `{NodePath}.
Import Js JsText Mcp.

Lemma lower_ascii_letter (a b : ascii) :
  Ascii.eqb (lower_ascii a) (lower_ascii b) = true -> lower_ascii b = lower_ascii a.
Proof. intros Heq. apply Ascii.eqb_eq in Heq. congruence. Qed.

Lemma upto_gt_split (s : string) (k : nat) :
  upto_gt s = Some k ->
  has_char ">"%char (take k s) = false /\
  String.length (take k s) = k /\
  s = take k s +:+ ">" +:+ drop (S k) s.
Proof.
  revert k. induction s as [|a s IH]; intros k; cbn [upto_gt]; [discriminate|].
  destruct (Ascii.eqb a ">") eqn:Ha.
  - intros Hk. injection Hk as <-. apply Ascii.eqb_eq in Ha. subst a.
    repeat split.
  - destruct (upto_gt s) as [j|]; [|discriminate].
    cbn [option_map]. intros Hk. injection Hk as <-.
    destruct (IH j eq_refl) as (Hfree & Hlen & Heq).
    cbn [take drop has_char String.append String.length]. rewrite Ha, Hfree, Hlen.
    repeat split. f_equal. exact Heq.
Qed.

Lemma upto_gt_found (attrs rest : string) :
  has_char ">"%char attrs = false ->
  upto_gt (attrs +:+ ">" +:+ rest) = Some (String.length attrs).
Proof.
  induction attrs as [|a attrs IH]; intros Hfree; [reflexivity|].
  cbn [has_char] in Hfree. apply orb_false_iff in Hfree as [Ha Hfree].
  change (upto_gt (String a attrs +:+ ">" +:+ rest))
    with (if Ascii.eqb a ">" then Some 0
          else option_map S (upto_gt (attrs +:+ ">" +:+ rest))).
  rewrite Ha, (IH Hfree). reflexivity.
Qed.

Lemma startsWith_ci_head (t : string) :
  startsWith_ci t "<head" = true ->
  String.length (take 5 t) = 5 /\ toLowerCase (take 5 t) = "<head".
Proof.
  destruct t as [|b1 [|b2 [|b3 [|b4 [|b5 t]]]]]; cbn [startsWith_ci andb];
    try discriminate;
    try (intros Hs; repeat (apply andb_true_iff in Hs as [_ Hs]); discriminate).
  intros Hs.
  apply andb_true_iff in Hs as [H1 Hs]. apply andb_true_iff in Hs as [H2 Hs].
  apply andb_true_iff in Hs as [H3 Hs]. apply andb_true_iff in Hs as [H4 Hs].
  apply andb_true_iff in Hs as [H5 _].
  apply lower_ascii_letter in H1, H2, H3, H4, H5.
  split; [reflexivity|]. cbn [take toLowerCase].
  rewrite H1, H2, H3, H4, H5. reflexivity.
Qed.

Lemma head_at_shape (t : string) (len : nat) :
  head_at t = Some len ->
  exists name attrs post,
    t = name +:+ attrs +:+ ">" +:+ post /\
    String.length name = 5 /\
    toLowerCase name = "<head" /\
    has_char ">"%char attrs = false /\
    len = 5 + String.length attrs + 1.
Proof.
  unfold head_at. destruct (startsWith_ci t "<head") eqn:Hs; [|discriminate].
  destruct (upto_gt (drop 5 t)) as [k|] eqn:Hk; [|discriminate].
  cbn [option_map]. intros Hlen. injection Hlen as <-.
  destruct (startsWith_ci_head _ Hs) as [Hn Hlow].
  destruct (upto_gt_split _ _ Hk) as (Hfree & Hklen & Heq).
  exists (take 5 t), (take k (drop 5 t)), (drop (S k) (drop 5 t)).
  split; [|split; [exact Hn|split; [exact Hlow|split; [exact Hfree|]]]].
  - rewrite <- Heq. symmetry. apply take_drop.
  - rewrite Hklen. reflexivity.
Qed.

Lemma headMatch_index (s : string) (index len : nat) :
  headMatch s = Some (index, len) -> String.length (take index s) = index.
Proof.
  revert index. induction s as [|a s IH]; intros index Hm; [discriminate|].
  cbn [headMatch] in Hm. destruct (head_at (String a s)).
  - injection Hm as <- <-. reflexivity.
  - destruct (headMatch s) as [[i n]|] eqn:Hs; [|discriminate].
    cbn in Hm. injection Hm as <- <-. cbn [take String.length].
    rewrite (IH i eq_refl). reflexivity.
Qed.

Lemma headMatch_nowhere (s : string) :
  headMatch s = None -> forall k, head_at (drop k s) = None.
Proof.
  induction s as [|a s IH]; intros Hm k.
  - destruct k; reflexivity.
  - cbn [headMatch] in Hm. destruct (head_at (String a s)) eqn:Hh; [discriminate|].
    destruct (headMatch s) eqn:Hs; [discriminate|].
    destruct k as [|k]; [exact Hh | apply (IH eq_refl)].
Qed.

(** X6: the match of the head expression is a tag that begins with the
    five characters of the tag name in any letter case and runs to the
    first closing bracket; nothing requires the name to end there, so a
    header tag is a head tag too.  Conversely every text that holds
    such a tag has a match. *)
Theorem headMatch_finds_first_tag_starting_with_head (s : string) :
  (forall index len, headMatch s = Some (index, len) ->
     exists pre name attrs post,
       s = pre +:+ name +:+ attrs +:+ ">" +:+ post /\
       String.length pre = index /\
       String.length name = 5 /\
       toLowerCase name = "<head" /\
       has_char ">"%char attrs = false /\
       len = 5 + String.length attrs + 1) /\
  (forall pre name attrs post,
     s = pre +:+ name +:+ attrs +:+ ">" +:+ post ->
     String.length name = 5 ->
     toLowerCase name = "<head" ->
     has_char ">"%char attrs = false ->
     exists index len, headMatch s = Some (index, len) /\ index <= String.length pre).
Proof.
  split.
  - intros index len Hm.
    destruct (headMatch_first _ _ _ Hm) as [Hat _].
    destruct (head_at_shape _ _ Hat) as (name & attrs & post & Heq & Hn & Hlow & Hfree & Hlen).
    exists (take index s), name, attrs, post.
    split; [|split; [exact (headMatch_index _ _ _ Hm)|auto]].
    rewrite <- Heq. symmetry. apply take_drop.
  - intros pre name attrs post -> Hn Hlow Hfree.
    assert (Hat : head_at (name +:+ attrs +:+ ">" +:+ post)
                  = Some (5 + String.length attrs + 1)).
    { destruct name as [|b1 [|b2 [|b3 [|b4 [|b5 [|b6 name]]]]]]; try discriminate.
      cbn [toLowerCase] in Hlow. injection Hlow as H1 H2 H3 H4 H5.
      change ((String b1 (String b2 (String b3 (String b4 (String b5 EmptyString)))))
                +:+ attrs +:+ ">" +:+ post)
        with (String b1 (String b2 (String b3 (String b4 (String b5
                (attrs +:+ ">" +:+ post)))))).
      assert (Hs : startsWith_ci
                (String b1 (String b2 (String b3 (String b4 (String b5
                   (attrs +:+ ">" +:+ post)))))) "<head" = true).
      { cbn [startsWith_ci]. rewrite H1, H2, H3, H4, H5. reflexivity. }
      unfold head_at. rewrite Hs. cbn [drop].
      rewrite (upto_gt_found _ _ Hfree). reflexivity. }
    destruct (headMatch (pre +:+ name +:+ attrs +:+ ">" +:+ post)) as [[index len]|] eqn:Hm.
    + exists index, len. split; [reflexivity|].
      destruct (headMatch_first _ _ _ Hm) as [_ Hbefore].
      destruct (le_lt_dec index (String.length pre)) as [Hle | Hlt]; [exact Hle|].
      specialize (Hbefore _ Hlt). rewrite drop_append, Hat in Hbefore. discriminate.
    + pose proof (headMatch_nowhere _ Hm (String.length pre)) as Hno.
      rewrite drop_append, Hat in Hno. discriminate.
Qed.
End IntegratorFrame.

Lemma headMatch_finds_first_tag_witness :
  exists index len,
    Mcp.headMatch "<main><header class=top>Title</header>" = Some (index, len) /\
    index <= 6.
Proof.
  exact (proj2 (headMatch_finds_first_tag_starting_with_head
                  "<main><header class=top>Title</header>")
           "<main>" "<head" "er class=top" "Title</header>"
           eq_refl eq_refl eq_refl eq_refl).
Defined.

Example headMatch_header : Mcp.headMatch "<main><header class=top>Title</header>" = Some (6, 18).
Proof. reflexivity. Qed.

Section IntegratorFiles.
Context `{NodePath}.
Import Js JsText Mcp.




(** X8: the integrator never creates or removes a file and touches no
    other file than the page: the set of paths is the same after the
    call, every other path keeps its content, directories stay
    directories, and the page itself changes only when it had no
    signature and a head tag, in which case it then has the signature. *)
Theorem integrate_touches_only_the_page (fs : gmap string node)
    (parsed : IntegrateIconsHTML) :
  let htmlFile := htmlFileOf fs parsed in
  let after := snd (handleIntegrateIconsHTML fs parsed) in
  dom after = dom fs /\
  (forall p, p <> htmlFile -> after !! p = fs !! p) /\
  (forall p, fs !! p = Some Dir -> after !! p = Some Dir) /\
  (after !! htmlFile <> fs !! htmlFile ->
   exists old new,
     fs !! htmlFile = Some (File old) /\
     after !! htmlFile = Some (File new) /\
     includes old "apple-touch-icon" = false /\
     includes old "site.webmanifest" = false /\
     headMatch old <> None /\
     includes new "apple-touch-icon" = true).
Proof.
  cbv zeta. unfold handleIntegrateIconsHTML. cbv zeta.
  destruct (fs !! htmlFileOf fs parsed) as [[data|]|] eqn:Hfile; cbn [snd];
    try (repeat split; intros; congruence).
  destruct (includes data "apple-touch-icon" || includes data "site.webmanifest") eqn:Hsig;
    cbn [snd]; try (repeat split; intros; congruence).
  destruct (headMatch data) as [[index len]|] eqn:Hhead; cbn [snd];
    try (repeat split; intros; congruence).
  apply orb_false_iff in Hsig as [Hsig1 Hsig2].
  refine (conj _ (conj _ (conj _ _))).
  - rewrite dom_insert_L. apply elem_of_dom_2 in Hfile.
    apply subseteq_union_1_L, singleton_subseteq_l. exact Hfile.
  - intros p Hp. apply lookup_insert_ne. congruence.
  - intros p Hp. destruct (decide (htmlFileOf fs parsed = p)) as [<-|Hne];
      [congruence | rewrite lookup_insert_ne by exact Hne; exact Hp].
  - intros _. eexists _, _. rewrite lookup_insert_eq.
    refine (conj eq_refl (conj eq_refl (conj Hsig1 (conj Hsig2 (conj _ _))))).
    + rewrite Hhead. discriminate.
    + apply includes_app_r, includes_app_l, spliced_has_signature.
Qed.
End IntegratorFiles.

Section RenderedIcons.
Context `{NodePath}.
Import Js JsText IconGenerator.

Lemma padded_canvas (size padded : Z) :
  (size - 1 <= padded + (size - padded) / 2 + (size - padded) / 2 <= size)%Z.
Proof.
  pose proof (Z.div_mod (size - padded) 2 ltac:(lia)).
  pose proof (Z.mod_pos_bound (size - padded) 2 ltac:(lia)).
  lia.
Qed.

(** X9: every image a run renders is read from the source file and
    belongs to an entry of the catalog that applies to the mode of the
    run; it is written under the entry's file name in the output
    directory, except for the ico entry, whose image is written under
    the name with the first .ico replaced and then renamed; the image
    is a square whose side is the catalog size, except for the maskable
    entry, where it is the catalog size or one pixel less. *)
Theorem rendered_icons_follow_the_catalog (this : IconGenerator.t)
    (sourceSVG source : string) (calls : list SharpCall) (out : string) :
  In (SharpToFile source calls out) (generate this sourceSVG) ->
  source = GeneratorOptions.sourcePath (options this) /\
  exists config kind,
    In config ICON_CONFIGS /\
    IconConfig.mode config = Some kind /\
    (kind = IconConfig.both \/ IconConfig.mode_is kind (mode this) = true) /\
    let outputPath :=
      path_join (GeneratorOptions.outputDir (options this)) (IconConfig.filename config) in
    (IconConfig.format config <> ico -> out = outputPath) /\
    (IconConfig.format config = ico ->
     out = replace outputPath ".ico" ".png" /\
     In (Rename out outputPath) (generate this sourceSVG)) /\
    exists side,
      sharp_output_size calls = (side, side) /\
      (IconConfig.size config - 1 <= side <= IconConfig.size config)%Z /\
      (IconConfig.filename config <> "icon-maskable.png" -> side = IconConfig.size config).
Proof.
  intros Hin. pose proof Hin as Hparts. rewrite generate_parts in Hparts.
  destruct Hparts as [Hop | [Hop | [Hop | [Hop | Hop]]]].
  - discriminate.
  - apply in_flat_map in Hop as (config & Hconfig & Hop).
    unfold iconsToGenerate in Hconfig. apply filter_In in Hconfig as [Hcat Happlies].
    assert (Hside : forall l, l = Resize (IconConfig.size config) (IconConfig.size config)
                    :: (if String.eqb (IconConfig.filename config) "icon-maskable.png"
                        then addMaskablePadding (IconConfig.size config) else [])
                    ++ [ToPng] ->
              exists side,
                sharp_output_size l = (side, side) /\
                (IconConfig.size config - 1 <= side <= IconConfig.size config)%Z /\
                (IconConfig.filename config <> "icon-maskable.png" ->
                 side = IconConfig.size config)).
    { intros l ->. destruct (String.eqb_spec (IconConfig.filename config) "icon-maskable.png")
        as [Hname | Hname].
      - eexists. split; [reflexivity|]. cbn -[Z.add Z.div Z.sub paddedSize].
        split; [|intros Hne; contradiction].
        unfold padding. rewrite !Z.add_0_l || idtac.
        apply padded_canvas.
      - exists (IconConfig.size config). cbn. rewrite !Z.add_0_r.
        split; [reflexivity|]. split; [lia | reflexivity]. }
    assert (Hkind : exists kind, IconConfig.mode config = Some kind /\
              (kind = IconConfig.both \/ IconConfig.mode_is kind (mode this) = true)).
    { destruct (IconConfig.mode config) as [kind|] eqn:Hk.
      - exists kind. split; [reflexivity|]. destruct kind; auto.
      - exfalso. simpl in Hcat. decompose [or] Hcat; subst; try discriminate; contradiction. }
    destruct Hkind as (kind & Hk & Hkind).
    unfold generateIcon in Hop.
    destruct (IconConfig.format config) eqn:Hformat; cbn [In] in Hop.
    + destruct Hop as [Heq | []]. injection Heq as <- <- <-.
      split; [reflexivity|]. exists config, kind.
      split; [exact Hcat|]. split; [exact Hk|]. split; [exact Hkind|].
      cbv zeta. rewrite Hformat. split; [intros _; reflexivity|].
      split; [intros Hf; discriminate Hf|]. apply Hside. reflexivity.
    + destruct Hop as [Heq | [Heq | []]]; [|discriminate]. injection Heq as <- <- <-.
      split; [reflexivity|]. exists config, kind.
      split; [exact Hcat|]. split; [exact Hk|]. split; [exact Hkind|].
      cbv zeta. split; [intros Hne; contradiction|]. split.
      * intros _. split; [reflexivity|].
        apply generate_parts. right; left. apply in_flat_map. exists config. split.
        -- unfold iconsToGenerate. apply filter_In. split; assumption.
        -- unfold generateIcon. rewrite Hformat. right; left. reflexivity.
      * apply Hside. reflexivity.
    + destruct Hop as [Heq | []]. injection Heq as <- <- <-.
      split; [reflexivity|]. exists config, kind.
      split; [exact Hcat|]. split; [exact Hk|]. split; [exact Hkind|].
      cbv zeta. rewrite Hformat. split; [intros _; reflexivity|].
      split; [intros Hf; discriminate Hf|]. apply Hside. reflexivity.
  - destruct (isSourceSVG this); [|destruct Hop as [Heq | []]; discriminate].
    apply in_app_iff in Hop as [Hop | Hop].
    + destruct Hop as [Heq | []]; discriminate.
    + destruct (mode this); [destruct Hop as [Heq | []]; discriminate | contradiction].
  - destruct (mode this); [destruct Hop as [Heq | []]; discriminate | contradiction].
  - destruct Hop as [Heq | []]; discriminate.
Qed.
End RenderedIcons.

Lemma rendered_icons_follow_the_catalog_witness :
  let this :=
    IconGenerator.new
      {| GeneratorOptions.sourcePath := "/srv/logo.svg";
         GeneratorOptions.outputDir := "/srv/app";
         GeneratorOptions.color := None;
         GeneratorOptions.mode := Some auto;
         GeneratorOptions.projectRoot := None |} in
  let calls := [Resize 32 32; ToPng] in
  In (SharpToFile "/srv/logo.svg" calls "/srv/app/favicon.png")
     (IconGenerator.generate this EmptyString) /\
  "/srv/logo.svg" = GeneratorOptions.sourcePath (IconGenerator.options this).
Proof.
  cbv zeta.
  assert (Hin : In (SharpToFile "/srv/logo.svg" [Resize 32 32; ToPng] "/srv/app/favicon.png")
                   (IconGenerator.generate
                      (IconGenerator.new
                         {| GeneratorOptions.sourcePath := "/srv/logo.svg";
                            GeneratorOptions.outputDir := "/srv/app";
                            GeneratorOptions.color := None;
                            GeneratorOptions.mode := Some auto;
                            GeneratorOptions.projectRoot := None |}) EmptyString)).
  { vm_compute. right; left. reflexivity. }
  split; [exact Hin|].
  exact (proj1 (rendered_icons_follow_the_catalog _ _ _ _ _ Hin)).
Defined.

Section FaviconFile.
Context `{NodePath}.
Import Js JsText IconGenerator.

Lemma startsWith_ico_across (c : ascii) (a b : string) :
  startsWith (String c a) ".ico" = false ->
  startsWith (String c a +:+ ".ico" +:+ b) ".ico" = false.
Proof.
  destruct a as [|c2 [|c3 [|c4 a]]]; cbn [startsWith String.append];
    repeat match goal with
           | |- context [Ascii.eqb ?x ?y] => is_var y; destruct (Ascii.eqb x y)
           end;
    intros Hs; try reflexivity; try discriminate Hs.
Qed.

Lemma indexOf_ico (a b : string) :
  includes a ".ico" = false ->
  indexOf (a +:+ ".ico" +:+ b) ".ico" = Some (String.length a).
Proof.
  induction a as [|c a IH]; intros Hno.
  - reflexivity.
  - apply includes_false_inv in Hno as [Hstart Hrest].
    change (indexOf (String c a +:+ ".ico" +:+ b) ".ico")
      with (if startsWith (String c a +:+ ".ico" +:+ b) ".ico" then Some 0
            else option_map S (indexOf (a +:+ ".ico" +:+ b) ".ico")).
    rewrite (startsWith_ico_across _ _ _ Hstart), (IH Hrest). reflexivity.
Qed.

Lemma take_append (a b : string) : take (String.length a) (a +:+ b) = a.
Proof. induction a as [|x a IH]; simpl; [destruct b; reflexivity | rewrite IH; reflexivity]. Qed.

Lemma replace_first_ico (a b : string) :
  includes a ".ico" = false ->
  replace (a +:+ ".ico" +:+ b) ".ico" ".png" = a +:+ ".png" +:+ b.
Proof.
  intros Hno. unfold replace. rewrite (indexOf_ico _ _ Hno), take_append.
  change (String.length ".ico") with 4.
  assert (Hdrop : drop (String.length a + 4) (a +:+ ".ico" +:+ b) = b).
  { clear Hno. induction a as [|x a IH]; [destruct b; reflexivity | exact IH]. }
  rewrite Hdrop. reflexivity.
Qed.

(** X10: the ico entry is rendered as a PNG under the output path with
    its first .ico replaced by .png, then renamed to the output path.
    The replacement looks at the whole path, not at the extension: when
    the directory part already contains .ico, it is the directory that
    changes, and the image is written under another directory with the
    .ico name kept. *)
Theorem favicon_written_under_first_ico_replaced (this : IconGenerator.t)
    (config : IconConfig.t) (before after : string) :
  IconConfig.format config = ico ->
  path_join (GeneratorOptions.outputDir (options this)) (IconConfig.filename config)
    = before +:+ ".ico" +:+ after ->
  includes before ".ico" = false ->
  exists calls,
    generateIcon this config
      = [ SharpToFile (GeneratorOptions.sourcePath (options this)) calls
            (before +:+ ".png" +:+ after);
          Rename (before +:+ ".png" +:+ after) (before +:+ ".ico" +:+ after) ].
Proof.
  intros Hformat Hpath Hfirst. unfold generateIcon.
  rewrite Hformat, Hpath, (replace_first_ico _ _ Hfirst).
  eexists. reflexivity.
Qed.
End FaviconFile.

Lemma favicon_written_under_first_ico_replaced_witness :
  let this :=
    IconGenerator.new
      {| GeneratorOptions.sourcePath := "/srv/logo.svg";
         GeneratorOptions.outputDir := "/srv/my.icons/public";
         GeneratorOptions.color := None;
         GeneratorOptions.mode := None;
         GeneratorOptions.projectRoot := None |} in
  let config :=
    {| IconConfig.filename := "favicon.ico"; IconConfig.size := 32%Z;
       IconConfig.format := ico; IconConfig.mode := Some IconConfig.both |} in
  exists calls,
    IconGenerator.generateIcon this config
      = [ SharpToFile "/srv/logo.svg" calls "/srv/my.pngns/public/favicon.ico";
          Rename "/srv/my.pngns/public/favicon.ico" "/srv/my.icons/public/favicon.ico" ].
Proof.
  exact (favicon_written_under_first_ico_replaced
           (IconGenerator.new
              {| GeneratorOptions.sourcePath := "/srv/logo.svg";
                 GeneratorOptions.outputDir := "/srv/my.icons/public";
                 GeneratorOptions.color := None;
                 GeneratorOptions.mode := None;
                 GeneratorOptions.projectRoot := None |})
           {| IconConfig.filename := "favicon.ico"; IconConfig.size := 32%Z;
              IconConfig.format := ico; IconConfig.mode := Some IconConfig.both |}
           "/srv/my" "ns/public/favicon.ico" eq_refl eq_refl eq_refl).
Defined.

Section SvgSource.
Context `{NodePath}.
Import Js JsText IconGenerator.

Lemma endsWith_iff (s suffix : string) :
  endsWith s suffix = true <-> exists stem, s = stem +:+ suffix.
Proof.
  unfold endsWith. split.
  - intros Hs. apply andb_true_iff in Hs as [_ Heq]. apply String.eqb_eq in Heq.
    exists (take (String.length s - String.length suffix) s).
    pose proof (take_drop (String.length s - String.length suffix) s) as Hsplit.
    rewrite Heq in Hsplit. symmetry. exact Hsplit.
  - intros [stem ->]. rewrite length_append.
    replace (String.length stem + String.length suffix - String.length suffix)
      with (String.length stem) by lia.
    rewrite drop_append, String.eqb_refl, andb_true_r.
    apply Nat.leb_le. lia.
Qed.

(** X11: a run copies the source to icon.svg exactly when the source
    path, lowered, ends in .svg, and warns exactly when it does not; it
    makes no other copy and gives no other warning. *)
Theorem svg_copied_or_warned (this : IconGenerator.t) (sourceSVG : string) :
  let ops := generate this sourceSVG in
  let is_svg := exists stem,
    toLowerCase (GeneratorOptions.sourcePath (options this)) = stem +:+ ".svg" in
  (forall from to,
     In (CopyFile from to) ops <->
     is_svg /\ from = GeneratorOptions.sourcePath (options this) /\
     to = path_join (GeneratorOptions.outputDir (options this)) "icon.svg") /\
  (forall message,
     In (ConsoleWarn message) ops <-> ~ is_svg /\ message = warn_not_svg).
Proof.
  cbv zeta.
  assert (Hsvg : isSourceSVG this = true <->
            exists stem, toLowerCase (GeneratorOptions.sourcePath (options this))
                         = stem +:+ ".svg").
  { unfold isSourceSVG. apply endsWith_iff. }
  assert (Hicons : forall op, In op (flat_map (generateIcon this) (iconsToGenerate this)) ->
            (forall a b, op <> CopyFile a b) /\ (forall m, op <> ConsoleWarn m)).
  { intros op Hop. apply in_flat_map in Hop as (config & _ & Hop).
    apply generateIcon_ops in Hop as [(s & c & o & ->) | (a & b & ->)];
      split; intros; discriminate. }
  split.
  - intros from to. rewrite generate_parts, <- Hsvg. split.
    + intros [Hop | [Hop | [Hop | [Hop | Hop]]]].
      * discriminate.
      * exfalso. exact (proj1 (Hicons _ Hop) _ _ eq_refl).
      * destruct (isSourceSVG this); [|destruct Hop as [Heq | []]; discriminate].
        apply in_app_iff in Hop as [[Heq | []] | Hop].
        -- injection Heq as <- <-. auto.
        -- destruct (mode this); [destruct Hop as [Heq | []]; discriminate | contradiction].
      * destruct (mode this); [destruct Hop as [Heq | []]; discriminate | contradiction].
      * destruct Hop as [Heq | []]; discriminate.
    + intros (Hs & -> & ->). right; right; left. rewrite Hs. left. reflexivity.
  - intros message. rewrite generate_parts, <- Hsvg. split.
    + intros [Hop | [Hop | [Hop | [Hop | Hop]]]].
      * discriminate.
      * exfalso. exact (proj2 (Hicons _ Hop) _ eq_refl).
      * destruct (isSourceSVG this).
        -- apply in_app_iff in Hop as [[Heq | []] | Hop]; [discriminate|].
           destruct (mode this); [destruct Hop as [Heq | []]; discriminate | contradiction].
        -- destruct Hop as [Heq | []]. injection Heq as <-. split; [discriminate | reflexivity].
      * destruct (mode this); [destruct Hop as [Heq | []]; discriminate | contradiction].
      * destruct Hop as [Heq | []]; discriminate.
    + intros (Hs & ->). right; right; left.
      destruct (isSourceSVG this); [contradiction Hs; reflexivity | left; reflexivity].
Qed.
End SvgSource.

Section FilesOfARun.
Context `{NodePath}.
Import Js JsText IconGenerator McpTools.

Lemma joined_apart (dir1 dir2 a b : string) :
  path_basename (path_join dir1 a) = a ->
  path_basename (path_join dir2 b) = b ->
  path_join dir1 a = path_join dir2 b -> a = b.
Proof. intros Ha Hb Heq. rewrite <- Ha, <- Hb, Heq. reflexivity. Qed.

Ltac in_names :=
  unfold joined_names, REQUIRED_ICONS; solve [repeat first [left; reflexivity | right]].

Ltac solve_names :=
  first [ exact I
        | split; discriminate
        | solve [cbn [In]; repeat first [left; reflexivity | right]] ].

(** X12: which of the required icons a run leaves in its output
    directory.  A traditional run from an SVG source leaves all eight;
    from another source it leaves all but icon.svg and
    safari-pinned-tab.svg; an app-router run leaves only favicon.ico and
    apple-touch-icon.png, and icon.svg when the source is an SVG.  The
    platform is asked only that the base name of a joined path is the
    joined name, for the names the program joins. *)
Theorem required_icons_left_by_a_run (this : IconGenerator.t) (sourceSVG name : string) :
  (forall dir file,
     In dir [GeneratorOptions.outputDir (options this); instructionsDir this] ->
     In file joined_names ->
     path_basename (path_join dir file) = file) ->
  In name REQUIRED_ICONS ->
  (path_join (GeneratorOptions.outputDir (options this)) name
     ∈ files_after (generate this sourceSVG) ∅
   <->
   match mode this, isSourceSVG this with
   | Traditional, true => True
   | Traditional, false => name <> "icon.svg" /\ name <> "safari-pinned-tab.svg"
   | NextJs, true => In name ["favicon.ico"; "apple-touch-icon.png"; "icon.svg"]
   | NextJs, false => In name ["favicon.ico"; "apple-touch-icon.png"]
   end).
Proof.
  intros Hbase Hname.
  assert (Hout : forall file, In file joined_names ->
            path_basename (path_join (GeneratorOptions.outputDir (options this)) file) = file).
  { intros file Hfile. apply Hbase; [left; reflexivity | exact Hfile]. }
  assert (Hguide : forall file, In file joined_names ->
            path_basename (path_join (instructionsDir this) file) = file).
  { intros file Hfile. apply Hbase; [right; left; reflexivity | exact Hfile]. }
  clear Hbase.
  unfold generate, files_after, generateHTMLSnippet, generateManifest,
    generateSafariPinnedTab, copySVGSource, iconsToGenerate.
  destruct (mode this), (isSourceSVG this);
    cbn -[replace monochromeSVG Json.stringify snippet_traditional snippet_nextjs
          instructionsDir].
  all: repeat (rewrite elem_of_union || rewrite elem_of_difference || rewrite elem_of_singleton).
  all: unfold REQUIRED_ICONS in Hname; cbn [In] in Hname.
  all: repeat (destruct Hname as [<- | Hname]); try contradiction.
  all: first
    [ split; [intros _; solve_names | intros _; solve [repeat first [left; reflexivity | right]]]
    | split;
      [ intros Hin; exfalso;
        repeat (destruct Hin as [Heq | Hin];
                [eapply joined_apart in Heq;
                 [discriminate Heq
                 |first [apply Hout | apply Hguide]; in_names
                 |first [apply Hout | apply Hguide]; in_names]|]);
        destruct Hin as [[Heq | Hin] Hne]; [contradiction | exact (proj1 (elem_of_empty _) Hin)]
      | intros Hr; exfalso; revert Hr; cbn [In]; intuition discriminate ] ].
Qed.
End FilesOfARun.

Lemma required_icons_left_by_a_run_witness :
  let this :=
    IconGenerator.new
      {| GeneratorOptions.sourcePath := "/srv/logo.png";
         GeneratorOptions.outputDir := "/srv/public";
         GeneratorOptions.color := None;
         GeneratorOptions.mode := None;
         GeneratorOptions.projectRoot := Some "/srv" |} in
  path_join "/srv/public" "icon.svg" ∈ files_after (IconGenerator.generate this EmptyString) ∅
  <-> "icon.svg" <> "icon.svg" /\ "icon.svg" <> "safari-pinned-tab.svg".
Proof.
  cbv zeta.
  assert (Hbase : forall dir file,
            In dir ["/srv/public"; "/srv"] -> In file joined_names ->
            path_basename (path_join dir file) = file).
  { intros dir file Hdir Hfile.
    cbn [In] in Hdir. unfold joined_names, McpTools.REQUIRED_ICONS in Hfile.
    cbn [In] in Hfile.
    repeat (destruct Hdir as [<- | Hdir]); try contradiction;
      repeat (destruct Hfile as [<- | Hfile]); try contradiction;
      vm_compute; reflexivity. }
  assert (Hname : In "icon.svg" McpTools.REQUIRED_ICONS).
  { right; left. reflexivity. }
  exact (required_icons_left_by_a_run
            (IconGenerator.new
               {| GeneratorOptions.sourcePath := "/srv/logo.png";
                  GeneratorOptions.outputDir := "/srv/public";
                  GeneratorOptions.color := None;
                  GeneratorOptions.mode := None;
                  GeneratorOptions.projectRoot := Some "/srv" |})
            EmptyString "icon.svg" Hbase Hname).
Defined.

Section StatusReport.
Context `{NodePath}.
Import Js JsText IconGenerator McpTools.

Lemma filter_partition_length {A : Type} (f : A -> bool) (l : list A) :
  length (List.filter f l) + length (List.filter (fun a => negb (f a)) l) = length l.
Proof.
  induction l as [|a l IH]; [reflexivity|]. cbn [List.filter].
  destruct (f a); cbn [negb length]; lia.
Qed.

Lemma names_of_filtered_status (fs : gmap string node) (publicDir : string)
    (keep : bool -> bool) (icons : list string) :
  map name
      (List.filter (fun i => keep (exists_ i))
         (map (fun icon =>
                 {| name := icon; exists_ := access fs (path_join publicDir icon);
                    path := path_join publicDir icon |}) icons))
  = List.filter (fun icon => keep (access fs (path_join publicDir icon))) icons.
Proof.
  induction icons as [|icon icons IH]; [reflexivity|].
  cbn [map List.filter exists_].
  destruct (keep (access fs (path_join publicDir icon))); cbn [map name]; rewrite IH;
    reflexivity.
Qed.

(** X13: the two lists of the status report split the eight required
    icons by whether the file exists in the public directory, each list
    in catalog order, and their lengths add up to eight.  The closing
    tip is never missing: it says that all icons are present exactly
    when nothing is missing and a source icon was found, suggests the
    automatic tool exactly when something is missing and a source icon
    was found, and asks for a source icon exactly when none was found. *)
Theorem status_lists_split_the_required_icons (fs : gmap string node)
    (projectPath : string) :
  let publicDir :=
    FrameworkDetector.getPublicDir fs {| FrameworkDetector.cwd := projectPath |} in
  let present icon := access fs (path_join publicDir icon) in
  let existing := McpTools.existing fs projectPath in
  let missing := McpTools.missing fs projectPath in
  let appIcon := findAppIcon fs projectPath in
  map name existing = List.filter present REQUIRED_ICONS /\
  map name missing = List.filter (fun icon => negb (present icon)) REQUIRED_ICONS /\
  length existing + length missing = 8 /\
  (statusTip missing appIcon = all_present_tip <-> missing = [] /\ truthy appIcon = true) /\
  (statusTip missing appIcon = run_auto_tip <-> missing <> [] /\ truthy appIcon = true) /\
  (statusTip missing appIcon = create_icon_tip <-> truthy appIcon = false).
Proof.
  cbv zeta. unfold existing, missing, iconStatus.
  split; [exact (names_of_filtered_status fs _ (fun b => b) REQUIRED_ICONS)|].
  split; [exact (names_of_filtered_status fs _ negb REQUIRED_ICONS)|].
  split.
  { rewrite filter_partition_length, length_map. reflexivity. }
  unfold statusTip.
  destruct (List.filter _ _) as [|i l]; destruct (truthy (findAppIcon fs projectPath));
    cbn [length Nat.eqb Nat.ltb Nat.leb andb negb];
    repeat split; intros; try discriminate; try tauto;
    repeat match goal with
           | Hc : _ /\ _ |- _ => destruct Hc
           end;
    try discriminate; try congruence.
Qed.

Lemma traditional_svg_run_leaves (this : IconGenerator.t) (sourceSVG icon : string) :
  mode this = Traditional -> isSourceSVG this = true ->
  In icon REQUIRED_ICONS ->
  path_join (GeneratorOptions.outputDir (options this)) icon
    ∈ files_after (generate this sourceSVG) ∅.
Proof.
  intros Hmode Hsvg Hicon.
  unfold generate, files_after, generateHTMLSnippet, generateManifest,
    generateSafariPinnedTab, copySVGSource, iconsToGenerate.
  rewrite Hmode, Hsvg.
  cbn -[replace monochromeSVG Json.stringify snippet_traditional snippet_nextjs
        instructionsDir].
  repeat (rewrite elem_of_union || rewrite elem_of_singleton).
  unfold REQUIRED_ICONS in Hicon. cbn [In] in Hicon.
  repeat (destruct Hicon as [<- | Hicon]); try contradiction;
    solve [repeat first [left; reflexivity | right]].
Qed.

(** X14: after a traditional run from an SVG source into the public
    directory of a project, the status report of that project finds
    none of the required icons missing, lists all eight as existing,
    and, when the project has a source icon, closes with the tip that
    all icons are present. *)
Theorem status_complete_after_traditional_svg_run (this : IconGenerator.t)
    (sourceSVG : string) (after : gmap string node) (projectPath : string) :
  mode this = Traditional ->
  isSourceSVG this = true ->
  FrameworkDetector.getPublicDir after {| FrameworkDetector.cwd := projectPath |}
    = GeneratorOptions.outputDir (options this) ->
  files_after (generate this sourceSVG) ∅ ⊆ dom after ->
  McpTools.missing after projectPath = [] /\
  map name (McpTools.existing after projectPath) = REQUIRED_ICONS /\
  (truthy (findAppIcon after projectPath) = true ->
   statusTip (McpTools.missing after projectPath) (findAppIcon after projectPath)
     = all_present_tip).
Proof.
  intros Hmode Hsvg Hpublic Hfiles.
  assert (Hall : forall icon, In icon REQUIRED_ICONS ->
            access after (path_join (GeneratorOptions.outputDir (options this)) icon) = true).
  { intros icon Hicon.
    pose proof (Hfiles _ (traditional_svg_run_leaves this sourceSVG icon Hmode Hsvg Hicon))
      as Hdom.
    apply elem_of_dom in Hdom as [n Hn]. unfold access. rewrite Hn. reflexivity. }
  assert (Hmissing : McpTools.missing after projectPath = []).
  { unfold missing, iconStatus. rewrite Hpublic.
    induction REQUIRED_ICONS as [|icon icons IH]; [reflexivity|].
    cbn [map List.filter exists_]. rewrite (Hall icon) by (left; reflexivity).
    cbn [negb]. apply IH. intros other Hother. apply Hall. right. exact Hother. }
  split; [exact Hmissing|]. split.
  - unfold existing, iconStatus. rewrite Hpublic.
    induction REQUIRED_ICONS as [|icon icons IH]; [reflexivity|].
    cbn [map List.filter exists_]. rewrite (Hall icon) by (left; reflexivity).
    cbn [map name]. f_equal. apply IH. intros other Hother. apply Hall. right. exact Hother.
  - intros Hicon. rewrite Hmissing. unfold statusTip. rewrite Hicon. reflexivity.
Qed.
End StatusReport.

Lemma status_complete_after_traditional_svg_run_witness :
  let this :=
    IconGenerator.new
      {| GeneratorOptions.sourcePath := "/srv/site/app-icon.svg";
         GeneratorOptions.outputDir := "/srv/site/public";
         GeneratorOptions.color := None;
         GeneratorOptions.mode := None;
         GeneratorOptions.projectRoot := None |} in
  let after :=
    gset_to_gmap (File EmptyString)
      (files_after (IconGenerator.generate this EmptyString) ∅) in
  McpTools.missing after "/srv/site" = [] /\
  map McpTools.name (McpTools.existing after "/srv/site") = McpTools.REQUIRED_ICONS /\
  (McpTools.truthy (findAppIcon after "/srv/site") = true ->
   McpTools.statusTip (McpTools.missing after "/srv/site") (findAppIcon after "/srv/site")
     = McpTools.all_present_tip).
Proof.
  cbv zeta.
  apply (status_complete_after_traditional_svg_run
           (IconGenerator.new
              {| GeneratorOptions.sourcePath := "/srv/site/app-icon.svg";
                 GeneratorOptions.outputDir := "/srv/site/public";
                 GeneratorOptions.color := None;
                 GeneratorOptions.mode := None;
                 GeneratorOptions.projectRoot := None |})
           EmptyString).
  - reflexivity.
  - vm_compute. reflexivity.
  - vm_compute. reflexivity.
  - rewrite dom_gset_to_gmap. reflexivity.
Defined.

Section MaskableCanvas.
Local Open Scope Z_scope.
Import Double.



End MaskableCanvas.


Section FoundIcon.
Context `{NodePath}.
Import Js JsText IconGenerator.

(** X16: an app icon found in a directory is accepted as a source: it
    exists, and its extension is one of the supported ones, as soon as
    the platform reads the extensions .svg and .png off the two joined
    names.  The automatic tool, which does not validate what it found,
    therefore builds its generator on a source that validation would
    accept. *)
Theorem found_app_icon_is_a_valid_source (fs : gmap string node)
    (cwd iconPath : string) :
  path_extname (path_join cwd "app-icon.svg") = ".svg" ->
  path_extname (path_join cwd "app-icon.png") = ".png" ->
  findAppIcon fs cwd = Some iconPath ->
  validateSourceFile fs iconPath = Ok tt /\
  forall color mode,
    iconPath <> EmptyString ->
    exists generator,
      McpTools.handleAutoGenerateIcons_generator fs
        {| AutoGenerateIconsSchema.projectPath := cwd;
           AutoGenerateIconsSchema.color := color;
           AutoGenerateIconsSchema.mode := mode |} = Ok generator /\
      validateSourceFile fs (GeneratorOptions.sourcePath (options generator)) = Ok tt.
Proof.
  intros Hsvg Hpng Hfound.
  assert (Hvalid : validateSourceFile fs iconPath = Ok tt).
  { unfold findAppIcon in Hfound. cbn [findAppIcon_loop] in Hfound.
    unfold validateSourceFile.
    destruct (access fs (path_join cwd "app-icon.svg")) eqn:Hone.
    - injection Hfound as <-. rewrite Hone, Hsvg. reflexivity.
    - destruct (access fs (path_join cwd "app-icon.png")) eqn:Htwo; [|discriminate].
      injection Hfound as <-. rewrite Htwo, Hpng. reflexivity. }
  split; [exact Hvalid|].
  intros color mode Hne. unfold McpTools.handleAutoGenerateIcons_generator.
  cbn [AutoGenerateIconsSchema.projectPath AutoGenerateIconsSchema.color
       AutoGenerateIconsSchema.mode].
  rewrite Hfound. destruct iconPath as [|a r]; [contradiction|].
  eexists. split; [reflexivity|]. exact Hvalid.
Qed.
End FoundIcon.

Lemma found_app_icon_is_a_valid_source_witness :
  let fs : gmap string node := {[ "/srv/site/app-icon.png" := File "png" ]} in
  validateSourceFile fs "/srv/site/app-icon.png" = Ok tt.
Proof.
  exact (proj1 (found_app_icon_is_a_valid_source
                  {[ "/srv/site/app-icon.png" := File "png" ]}
                  "/srv/site" "/srv/site/app-icon.png" eq_refl eq_refl
                  ltac:(vm_compute; reflexivity))).
Defined.

Section Colours.
Context `{NodePath}.
Import Js JsText IconGenerator.

Lemma or_else_given (color : option string) (fallback : string) :
  or_else (Some (or_else color fallback)) fallback = or_else color fallback.
Proof. destruct color as [[|a r]|]; destruct fallback; reflexivity. Qed.

(** X17: in a traditional run from an SVG source the pinned tab is
    recoloured with the colour of the options, or with #000000 when
    none is given, while the mask-icon link of the guide names the
    colour of the options, or #5bbad5 when none is given: the two
    files name the same colour exactly when the options give one. *)
Theorem pinned_tab_and_guide_colours (this : IconGenerator.t) (sourceSVG : string) :
  mode this = Traditional ->
  isSourceSVG this = true ->
  let color := GeneratorOptions.color (options this) in
  let tabColour := or_else color "#000000" in
  let guideColour := or_else color "#5bbad5" in
  In (WriteFile (path_join (GeneratorOptions.outputDir (options this)) "safari-pinned-tab.svg")
                (monochromeSVG (Some tabColour) sourceSVG))
     (generate this sourceSVG) /\
  In (WriteFile (path_join (instructionsDir this) "icon-integration-guide.txt")
                (snippet_traditional (Some guideColour)))
     (generate this sourceSVG) /\
  (tabColour = guideColour <-> exists a r, color = Some (String a r)).
Proof.
  intros Hmode Hsvg. cbv zeta. split; [|split].
  - apply generate_parts. right; right; left. rewrite Hsvg, Hmode.
    right; left. unfold monochromeSVG. rewrite or_else_given. reflexivity.
  - apply generate_parts. right; right; right; right.
    unfold generateHTMLSnippet. rewrite Hmode. left.
    unfold snippet_traditional. rewrite or_else_given. reflexivity.
  - destruct (GeneratorOptions.color (options this)) as [[|a r]|]; cbn [or_else]; split.
    + discriminate.
    + intros (a & r & Heq). discriminate.
    + intros _. exists a, r. reflexivity.
    + reflexivity.
    + discriminate.
    + intros (a & r & Heq). discriminate.
Qed.
End Colours.

Lemma pinned_tab_and_guide_colours_witness :
  let this :=
    IconGenerator.new
      {| GeneratorOptions.sourcePath := "/srv/logo.svg";
         GeneratorOptions.outputDir := "/srv/public";
         GeneratorOptions.color := None;
         GeneratorOptions.mode := None;
         GeneratorOptions.projectRoot := None |} in
  In (WriteFile (path_join "/srv/public" "safari-pinned-tab.svg")
                (IconGenerator.monochromeSVG (Some "#000000") "<svg/>"))
     (IconGenerator.generate this "<svg/>") /\
  In (WriteFile (path_join "/srv/public" "icon-integration-guide.txt")
                (IconGenerator.snippet_traditional (Some "#5bbad5")))
     (IconGenerator.generate this "<svg/>").
Proof.
  cbv zeta.
  pose proof (pinned_tab_and_guide_colours
                (IconGenerator.new
                   {| GeneratorOptions.sourcePath := "/srv/logo.svg";
                      GeneratorOptions.outputDir := "/srv/public";
                      GeneratorOptions.color := None;
                      GeneratorOptions.mode := None;
                      GeneratorOptions.projectRoot := None |})
                "<svg/>" eq_refl eq_refl) as (Htab & Hguide & _).
  split; [exact Htab | exact Hguide].
Defined.
